(** * Amharic transcriber: the workflow controller and its services

    A shallow embedding of the React component [TranscriberUI], of the
    Gemini engine wrapper and of the Supabase persistence service, with the
    properties of the transcription workflow stated over it.

    The component keeps its state in [useState] cells and [useRef] boxes.
    Its handlers are asynchronous: each runs synchronously up to an [await],
    and the rest runs when the awaited promise settles, possibly after other
    events have been handled.  The embedding keeps that structure: a handler
    is a state transformer that may register a pending operation, and each
    continuation is a state transformer of its own, named after the handler
    it belongs to. *)

From Stdlib Require Import String Ascii List ZArith QArith Lia Bool.
From Stdlib Require Import DecimalString.
Import ListNotations.

Local Close Scope Q_scope.
Local Open Scope string_scope.
Local Open Scope list_scope.

Set Implicit Arguments.

(* ================================================================== *)
(** * JavaScript values used by the code *)
(* ================================================================== *)

Module Js.

(** The line feed written [\n] in the source. *)
Definition nl : string := String (ascii_of_nat 10) EmptyString.

(** Truthiness of a [string | undefined]: [undefined] and the empty string
    are falsy. *)
Definition truthy (v : option string) : bool :=
  match v with
  | Some s => negb (s =? "")
  | None => false
  end.

(** [v || d] on a [string | undefined]. *)
Definition or_else (v : option string) (d : string) : string :=
  if truthy v then match v with Some s => s | None => d end else d.

(** What string concatenation makes of a [string | undefined]. *)
Definition to_string (v : option string) : string :=
  match v with
  | Some s => s
  | None => "undefined"
  end.

(** [s.split(sep)] for a separator of one character: the pieces between
    the separators, never an empty array. *)
Fixpoint split (sep : ascii) (s : string) : list string :=
  match s with
  | EmptyString => [EmptyString]
  | String c rest =>
      if Ascii.eqb c sep then EmptyString :: split sep rest
      else match split sep rest with
           | [] => [String c EmptyString]
           | piece :: pieces => String c piece :: pieces
           end
  end.

(** The character [c] occurs in [s]. *)
Fixpoint occurs (c : ascii) (s : string) : bool :=
  match s with
  | EmptyString => false
  | String d rest => Ascii.eqb d c || occurs c rest
  end.

(** [a[i]]: [undefined] out of range. *)
Definition index (a : list string) (i : nat) : option string :=
  nth_error a i.

(** A number printed by a template literal; the numbers printed here are
    the integers of [Date.getTime()]. *)
Definition number_to_string (n : Z) : string :=
  NilZero.string_of_int (Z.to_int n).

(** A thrown value, as far as the handlers look at it: its [message],
    which is [undefined] on values that are not [Error]s (a
    [ProgressEvent], say). *)
Record Error : Type := mkError { message : option string }.

Definition new_Error (msg : string) : Error := mkError (Some msg).

(** A settled promise. *)
Inductive Settled (A : Type) : Type :=
| Rejected (reason : Error)
| Resolved (value : A).
Arguments Rejected {A} reason.
Arguments Resolved {A} value.

Definition rejected {A} (p : Settled A) : bool :=
  match p with Rejected _ => true | Resolved _ => false end.

End Js.
Import Js.

(* ================================================================== *)
(** * types.ts *)
(* ================================================================== *)

Inductive TranscriptionStatus : Type :=
| IDLE | RECORDING | RECORDED | TRANSCRIBING | TRANSLATING | COMPLETED | ERROR.

Definition status_eqb (a b : TranscriptionStatus) : bool :=
  match a, b with
  | IDLE, IDLE | RECORDING, RECORDING | RECORDED, RECORDED
  | TRANSCRIBING, TRANSCRIBING | TRANSLATING, TRANSLATING
  | COMPLETED, COMPLETED | ERROR, ERROR => true
  | _, _ => false
  end.

(** A [Blob] (a [File] is one): its bytes and its MIME type tag. *)
Record Blob : Type := mkBlob {
  blob_bytes : list Byte.byte;
  blob_type : string
}.

Definition blob_size (b : Blob) : nat := length (blob_bytes b).

(** [new Blob(parts, { type })]. *)
Definition new_Blob (parts : list Blob) (type : string) : Blob :=
  mkBlob (concat (map blob_bytes parts)) type.

Record TranscriptionResult : Type := mkResult {
  text : string;
  translatedText : option string;
  timestamp : Z;                      (* a [Date], as epoch milliseconds *)
  audioBlob : option Blob
}.

Record InlineData : Type := mkInlineData {
  mimeType : string;
  data : option string
}.

Record AudioPart : Type := mkAudioPart { inlineData : InlineData }.

(* ================================================================== *)
(** * services/geminiService.ts *)
(* ================================================================== *)

Module GeminiService.

Inductive Part : Type :=
| audio_part (a : AudioPart)
| text_part (t : string).

Inductive Contents : Type :=
| parts (ps : list Part)
| plain (prompt : string).

Record Config : Type := mkConfig {
  temperature : Q;
  topP : option Q;
  topK : option Z
}.

Record GenerateContentParameters : Type := mkParams {
  model : string;
  contents : Contents;
  config : Config
}.

(** Of the provider's response the wrapper reads [response.text] only. *)
Record GenerateContentResponse : Type := mkResponse {
  response_text : option string
}.

(** [this.ai.models.generateContent]: the provider, which answers each
    request by a response or by an error. *)
Definition GoogleGenAI : Type :=
  GenerateContentParameters -> Settled GenerateContentResponse.

Definition no_transcription : string := "No transcription available.".
Definition translation_failed : string := "Translation failed.".

Definition TranscriptionFailed : Error :=
  new_Error
    "Failed to transcribe audio. Please check your connection or API key.".
Definition TranslationFailed : Error :=
  new_Error "Failed to translate text.".

Definition transcribe_prompt : string :=
  "You are a professional Amharic transcriber. " ++ nl ++
  "    Transcribe the provided audio content exactly into Amharic text. " ++ nl ++
  "    Do not provide translations or summaries, only the verbatim transcription." ++ nl ++
  "    If the audio is silent or unintelligible, state that clearly.".

Definition translate_prompt (amharicText : string) : string :=
  "You are a professional translator. Translate the following Amharic text into clear, fluent English. " ++ nl ++
  "    Maintain the original meaning and tone." ++ nl ++
  "    " ++ nl ++
  "    Amharic Text:" ++ nl ++
  "    " ++ amharicText.

(** The request that [transcribeAmharic] sends. *)
Definition transcribe_request (base64Audio : option string)
    (mimeType : string) : GenerateContentParameters :=
  let audioPart := mkAudioPart (mkInlineData mimeType base64Audio) in
  let prompt := transcribe_prompt in
  mkParams "gemini-3-flash-preview"
    (parts [audio_part audioPart; text_part prompt])
    (mkConfig (2 # 10)%Q (Some (8 # 10)%Q) (Some 40%Z)).

(** The request that [translateToEnglish] sends. *)
Definition translate_request (amharicText : string)
    : GenerateContentParameters :=
  let prompt := translate_prompt amharicText in
  mkParams "gemini-3-flash-preview" (plain prompt)
    (mkConfig (3 # 10)%Q None None).

Section WithProvider.

Variable ai : GoogleGenAI.

Definition transcribeAmharic (base64Audio : option string)
    (mimeType : string) : Settled string :=
  match ai (transcribe_request base64Audio mimeType) with
  | Resolved response =>
      Resolved (or_else (response_text response) no_transcription)
  | Rejected _ => Rejected TranscriptionFailed
  end.

Definition translateToEnglish (amharicText : string) : Settled string :=
  match ai (translate_request amharicText) with
  | Resolved response =>
      Resolved (or_else (response_text response) translation_failed)
  | Rejected _ => Rejected TranslationFailed
  end.

End WithProvider.

End GeminiService.

(* ================================================================== *)
(** * services/supabaseService.ts *)
(* ================================================================== *)

Module SupabaseService.

Record User : Type := mkUser { id : string }.

(** A row of the table [transcriptions], as [saveTranscription] builds it.
    [created_at] is the instant that [toISOString] prints. *)
Record Row : Type := mkRow {
  amharic_text : string;
  english_text : option string;
  user_id : string;
  created_at : Z
}.

Definition Unauthenticated : Error :=
  new_Error "User must be logged in to save data.".

Section WithStore.

(** [getCurrentUser()]: the user of the session, if there is one. *)
Variable getCurrentUser : option User.

(** [supabase.from('transcriptions').insert(rows).select()]: the inserted
    rows, or the store's error. *)
Variable insert : list Row -> Settled (list Row).

Definition saveTranscription (amharic : string) (english : option string)
    (now : Z) : Settled (list Row) :=
  match getCurrentUser with
  | None => Rejected Unauthenticated
  | Some user =>
      match insert [mkRow amharic english (id user) now] with
      | Rejected error => Rejected error
      | Resolved data => Resolved data
      end
  end.

End WithStore.

End SupabaseService.

(* ================================================================== *)
(** * components/TranscriberUI.tsx *)
(* ================================================================== *)

Module TranscriberUI.

(** A [MediaStream] is a handle; the controller only stores it and stops
    its tracks. *)
Definition MediaStream : Type := nat.

(** The [useState] cells. *)
Record State : Type := mkState {
  status : TranscriptionStatus;
  result : option TranscriptionResult;
  error : option string;
  stream : option MediaStream;
  pendingBlob : option Blob;
  isSaving : bool;
  saveSuccess : bool
}.

(** A [MediaRecorder] is recording after [start()]; [stop()] makes it
    deliver its data and then fire [stop]; after that it is inactive.  A
    recorder that is recording also delivers its data and fires [stop] by
    itself when the tracks of its stream end. *)
Inductive RecorderPhase : Type := Recording | Stopping | Inactive.

(** What a handler waits for at an [await], with the values its
    continuation has captured, and the timer of [setTimeout]. *)
Inductive Pending : Type :=
| AwaitUserMedia
| AwaitDataURL (blob : Blob)
| AwaitTranscription (blob : Blob) (base64 : option string)
| AwaitTranslation (amharicText : string)
| AwaitSave (amharic : string) (english : option string)
| SaveSuccessTimeout.

Inductive Payload : Type :=
| text_payload (content : string) (type : string)
| blob_payload (blob : Blob).

(** A file handed to the browser through an anchor's [download]. *)
Record Download : Type := mkDownload {
  download_name : string;
  download_body : Payload
}.

(** The component and what it acts on: the state cells, the [useRef]
    boxes, the recorders it has created, the streams whose tracks it has
    stopped, the operations in flight and the files downloaded so far.
    The DOM value of the file input is not kept. *)
Record World : Type := mkWorld {
  ui : State;
  mediaRecorderRef : option nat;
  audioChunksRef : list Blob;
  recorders : list RecorderPhase;
  stoppedStreams : list MediaStream;
  pending : list Pending;
  downloads : list Download
}.

Definition Action : Type := World -> World.

Definition andThen (a b : Action) : Action := fun w => b (a w).
Notation "a ;; b" := (andThen a b) (at level 61, left associativity).

Definition skip : Action := fun w => w.

(** ** State setters *)

Definition with_ui (f : State -> State) : Action := fun w =>
  mkWorld (f (ui w)) (mediaRecorderRef w) (audioChunksRef w) (recorders w)
    (stoppedStreams w) (pending w) (downloads w).

Definition setStatus (v : TranscriptionStatus) : Action :=
  with_ui (fun s => mkState v (result s) (error s) (stream s)
                      (pendingBlob s) (isSaving s) (saveSuccess s)).

(** [setResult(prev => f(prev))]; [setResult(v)] is the constant update. *)
Definition updateResult
    (f : option TranscriptionResult -> option TranscriptionResult) : Action :=
  with_ui (fun s => mkState (status s) (f (result s)) (error s) (stream s)
                      (pendingBlob s) (isSaving s) (saveSuccess s)).

Definition setResult (v : option TranscriptionResult) : Action :=
  updateResult (fun _ => v).

Definition setError (v : option string) : Action :=
  with_ui (fun s => mkState (status s) (result s) v (stream s)
                      (pendingBlob s) (isSaving s) (saveSuccess s)).

Definition setStream (v : option MediaStream) : Action :=
  with_ui (fun s => mkState (status s) (result s) (error s) v
                      (pendingBlob s) (isSaving s) (saveSuccess s)).

Definition setPendingBlob (v : option Blob) : Action :=
  with_ui (fun s => mkState (status s) (result s) (error s) (stream s)
                      v (isSaving s) (saveSuccess s)).

Definition setIsSaving (v : bool) : Action :=
  with_ui (fun s => mkState (status s) (result s) (error s) (stream s)
                      (pendingBlob s) v (saveSuccess s)).

Definition setSaveSuccess (v : bool) : Action :=
  with_ui (fun s => mkState (status s) (result s) (error s) (stream s)
                      (pendingBlob s) (isSaving s) v).

(** ** Refs, recorders and operations in flight *)

Definition set_mediaRecorderRef (v : option nat) : Action := fun w =>
  mkWorld (ui w) v (audioChunksRef w) (recorders w) (stoppedStreams w)
    (pending w) (downloads w).

Definition set_audioChunksRef (v : list Blob) : Action := fun w =>
  mkWorld (ui w) (mediaRecorderRef w) v (recorders w) (stoppedStreams w)
    (pending w) (downloads w).

Definition set_recorders (v : list RecorderPhase) : Action := fun w =>
  mkWorld (ui w) (mediaRecorderRef w) (audioChunksRef w) v (stoppedStreams w)
    (pending w) (downloads w).

Definition set_stoppedStreams (v : list MediaStream) : Action := fun w =>
  mkWorld (ui w) (mediaRecorderRef w) (audioChunksRef w) (recorders w) v
    (pending w) (downloads w).

Definition set_pending (v : list Pending) : Action := fun w =>
  mkWorld (ui w) (mediaRecorderRef w) (audioChunksRef w) (recorders w)
    (stoppedStreams w) v (downloads w).

Definition set_downloads (v : list Download) : Action := fun w =>
  mkWorld (ui w) (mediaRecorderRef w) (audioChunksRef w) (recorders w)
    (stoppedStreams w) (pending w) v.

(** Suspend at an [await] (or arm a timer): the operation is in flight. *)
Definition await (p : Pending) : Action := fun w =>
  set_pending (pending w ++ [p]) w.

(** [l] without its [k]-th element. *)
Fixpoint remove_nth {A} (k : nat) (l : list A) : list A :=
  match l, k with
  | [], _ => []
  | _ :: l', O => l'
  | x :: l', S k' => x :: remove_nth k' l'
  end.

(** The [k]-th operation in flight has settled. *)
Definition settled (k : nat) : Action := fun w =>
  set_pending (remove_nth k (pending w)) w.

(** [l] with its [i]-th element replaced by [v], where there is one. *)
Fixpoint replace_nth {A} (i : nat) (v : A) (l : list A) : list A :=
  match l, i with
  | [], _ => []
  | _ :: l', O => v :: l'
  | x :: l', S i' => x :: replace_nth i' v l'
  end.

(** [new MediaRecorder(stream)], stored in [mediaRecorderRef]. *)
Definition new_MediaRecorder (phase : RecorderPhase) : Action := fun w =>
  (set_recorders (recorders w ++ [phase]) ;;
   set_mediaRecorderRef (Some (length (recorders w)))) w.

(** [recorder.stop()]: nothing on a recorder that is not recording. *)
Definition recorder_stop (i : nat) : Action := fun w =>
  match nth_error (recorders w) i with
  | Some Recording => set_recorders (replace_nth i Stopping (recorders w)) w
  | _ => w
  end.

(** [stream?.getTracks().forEach(track => track.stop())]. *)
Definition stop_tracks (s : option MediaStream) : Action := fun w =>
  match s with
  | Some m => set_stoppedStreams (stoppedStreams w ++ [m]) w
  | None => w
  end.

Definition download (d : Download) : Action := fun w =>
  set_downloads (downloads w ++ [d]) w.

(** ** startRecording *)

(** What comes back from [navigator.mediaDevices.getUserMedia] is a stream
    or a rejection; with a stream, constructing or starting the recorder
    may still throw inside the same [try]. *)
Inductive RecorderOutcome : Type := ConstructorThrows | StartThrows | Started.

Definition DeviceUnavailable : string :=
  "Microphone access denied or not available.".

Definition startRecording : Action :=
  setError None ;;
  setResult None ;;
  setPendingBlob None ;;
  setSaveSuccess false ;;
  set_audioChunksRef [] ;;
  await AwaitUserMedia.

Definition startRecording_catch : Action :=
  setError (Some DeviceUnavailable) ;;
  setStatus IDLE.

Definition startRecording_resume (media : Settled MediaStream)
    (recorder : RecorderOutcome) : Action :=
  match media with
  | Rejected _ => startRecording_catch
  | Resolved mediaStream =>
      setStream (Some mediaStream) ;;
      match recorder with
      | ConstructorThrows => startRecording_catch
      | StartThrows => new_MediaRecorder Inactive ;; startRecording_catch
      | Started => new_MediaRecorder Recording ;; setStatus RECORDING
      end
  end.

(** [recorder.ondataavailable]. *)
Definition ondataavailable (event_data : Blob) : Action := fun w =>
  if (0 <? blob_size event_data)%nat
  then set_audioChunksRef (audioChunksRef w ++ [event_data]) w
  else w.

(** [recorder.onstop]. *)
Definition onstop : Action := fun w =>
  let audioBlob := new_Blob (audioChunksRef w) "audio/webm" in
  (setPendingBlob (Some audioBlob) ;;
   setStatus RECORDED) w.

(** ** stopRecording *)

Definition stopRecording : Action := fun w =>
  match mediaRecorderRef w with
  | Some recorder =>
      if status_eqb (status (ui w)) RECORDING
      then (recorder_stop recorder ;;
            stop_tracks (stream (ui w)) ;;
            setStream None) w
      else w
  | None => w
  end.

(** ** blobToBase64 *)

(** The [FileReader] ends with a data URL or with an error; the promise
    resolves to what follows the first comma of the URL. *)
Definition blobToBase64 (reader : Settled string) : Settled (option string) :=
  match reader with
  | Rejected e => Rejected e
  | Resolved dataURL =>
      Resolved (index (split (ascii_of_nat 44) dataURL) 1)
  end.

(** ** handleTranscribeNow *)

Definition handleTranscribeNow : Action := fun w =>
  match pendingBlob (ui w) with
  | None => w
  | Some blob =>
      (setStatus TRANSCRIBING ;;
       await (AwaitDataURL blob)) w
  end.

Definition handleTranscribeNow_catch (err : Error) : Action :=
  setError (Some (or_else (message err)
                    "An error occurred during transcription.")) ;;
  setStatus ERROR.

(** After [await blobToBase64(pendingBlob)]. *)
Definition handleTranscribeNow_encoded (pendingBlob : Blob)
    (encoded : Settled (option string)) : Action :=
  match encoded with
  | Rejected err => handleTranscribeNow_catch err
  | Resolved base64 => await (AwaitTranscription pendingBlob base64)
  end.

(** After [await geminiService.transcribeAmharic(base64, pendingBlob.type)];
    [now] is the clock read by [new Date()]. *)
Definition handleTranscribeNow_transcribed (pendingBlob : Blob)
    (transcribed : Settled string) (now : Z) : Action :=
  match transcribed with
  | Resolved text =>
      setResult (Some (mkResult text None now (Some pendingBlob))) ;;
      setStatus COMPLETED
  | Rejected err => handleTranscribeNow_catch err
  end.

(** ** handleTranslateNow *)

Definition handleTranslateNow : Action := fun w =>
  match result (ui w) with
  | None => w
  | Some r =>
      (setStatus TRANSLATING ;;
       await (AwaitTranslation (text r))) w
  end.

(** After [await geminiService.translateToEnglish(result.text)]. *)
Definition handleTranslateNow_translated (translated : Settled string)
    : Action :=
  match translated with
  | Resolved translatedText =>
      updateResult (fun prev =>
        match prev with
        | Some p => Some (mkResult (text p) (Some translatedText)
                            (timestamp p) (audioBlob p))
        | None => None
        end) ;;
      setStatus COMPLETED
  | Rejected err =>
      setError (Some (or_else (message err)
                        "An error occurred during translation.")) ;;
      setStatus COMPLETED
  end.

(** ** handleSaveToCloud *)

Definition handleSaveToCloud : Action := fun w =>
  match result (ui w) with
  | None => w
  | Some r =>
      (setIsSaving true ;;
       setSaveSuccess false ;;
       await (AwaitSave (text r) (translatedText r))) w
  end.

(** After [await saveTranscription(result.text, result.translatedText)]:
    the [try] or the [catch], then the [finally]. *)
Definition handleSaveToCloud_saved
    (saved : Settled (list SupabaseService.Row)) : Action :=
  match saved with
  | Resolved _ =>
      setSaveSuccess true ;;
      await SaveSuccessTimeout
  | Rejected err =>
      setError (Some ("Failed to save to Supabase: "
                      ++ to_string (message err))%string)
  end ;;
  setIsSaving false.

(** The callback of [setTimeout(..., 3000)]. *)
Definition saveSuccess_timeout : Action := setSaveSuccess false.

(** ** handleTextChange *)

Inductive Field : Type := text_field | translatedText_field.

Definition handleTextChange (field : Field) (value : string) : Action :=
  updateResult (fun prev =>
    match prev with
    | Some p =>
        match field with
        | text_field =>
            Some (mkResult value (translatedText p) (timestamp p)
                    (audioBlob p))
        | translatedText_field =>
            Some (mkResult (text p) (Some value) (timestamp p)
                    (audioBlob p))
        end
    | None => None
    end).

(** ** handleFileChange *)

(** [file] is [e.target.files?.[0]]. *)
Definition handleFileChange (file : option Blob) : Action :=
  match file with
  | None => skip
  | Some f =>
      if prefix "audio/" (blob_type f)
      then setError None ;;
           setPendingBlob (Some f) ;;
           setStatus RECORDED
      else setError (Some "Please select a valid audio file.")
  end.

(** ** downloadTranscription and downloadAudio *)

Definition transcription_content (r : TranscriptionResult) : string :=
  let content := ("Original Amharic:" ++ nl ++ text r)%string in
  if truthy (translatedText r)
  then (content ++ nl ++ nl ++ "English Translation:" ++ nl
                ++ to_string (translatedText r))%string
  else content.

Definition transcription_filename (now : Z) : string :=
  "amharic-transcription-" ++ number_to_string now ++ ".txt".

Definition downloadTranscription (now : Z) : Action := fun w =>
  match result (ui w) with
  | None => w
  | Some r =>
      download (mkDownload (transcription_filename now)
                  (text_payload (transcription_content r)
                     "text/plain;charset=utf-8")) w
  end.

(** [result?.audioBlob || pendingBlob]. *)
Definition audio_to_download (s : State) : option Blob :=
  match result s with
  | Some r =>
      match audioBlob r with
      | Some b => Some b
      | None => pendingBlob s
      end
  | None => pendingBlob s
  end.

Definition audio_extension (blob : Blob) : string :=
  or_else (index (split (ascii_of_nat 47) (blob_type blob)) 1) "webm".

Definition audio_filename (blob : Blob) (now : Z) : string :=
  "amharic-audio-" ++ number_to_string now ++ "." ++ audio_extension blob.

Definition downloadAudio (now : Z) : Action := fun w =>
  match audio_to_download (ui w) with
  | None => w
  | Some blob =>
      download (mkDownload (audio_filename blob now) (blob_payload blob)) w
  end.

(** ** reset *)

Definition reset : Action :=
  setStatus IDLE ;;
  setResult None ;;
  setPendingBlob None ;;
  setError None ;;
  setSaveSuccess false.

(** ** What the component renders *)

Definition has_result (s : State) : bool :=
  match result s with Some _ => true | None => false end.

(** [result.translatedText ? <textarea ...> : <button ...>]. *)
Definition translation_shown (s : State) : bool :=
  match result s with
  | Some r => truthy (translatedText r)
  | None => false
  end.

(** What the user and the environment can do to the component.  The
    operations in flight are addressed by their position in [pending], a
    recorder by its position in [recorders]; [recorder_stopped] is a
    recorder delivering its data and firing [stop], after [stop()] or, while
    it is recording, because its tracks have ended. *)
Inductive Event : Type :=
| click_record
| click_stop
| choose_file (file : option Blob)
| click_transcribe
| click_translate
| click_save
| click_clear_all
| type_text (value : string)
| type_translation (value : string)
| click_download_text (now : Z)
| click_download_audio (now : Z)
| user_media_settled (k : nat) (media : Settled MediaStream)
    (recorder : RecorderOutcome)
| reader_settled (k : nat) (reader : Settled string)
| transcription_settled (k : nat)
    (answer : Settled GeminiService.GenerateContentResponse) (now : Z)
| translation_settled (k : nat)
    (answer : Settled GeminiService.GenerateContentResponse)
| save_settled (k : nat) (user : option SupabaseService.User)
    (answer : Settled (list SupabaseService.Row)) (now : Z)
| timeout_fired (k : nat)
| recorder_stopped (i : nat) (event_data : Blob).

Definition is_user_event (e : Event) : bool :=
  match e with
  | click_record | click_stop | choose_file _ | click_transcribe
  | click_translate | click_save | click_clear_all | type_text _
  | type_translation _ | click_download_text _ | click_download_audio _ =>
      true
  | _ => false
  end.

(** The control of a user event is rendered and enabled in state [s]:
    the conditions of the JSX, with the [disabled] attributes.  A control
    that is absent or disabled delivers no event to its handler. *)
Definition offered (e : Event) (s : State) : bool :=
  match e with
  | click_record | choose_file _ => status_eqb (status s) IDLE
  | click_stop => status_eqb (status s) RECORDING
  | click_transcribe => status_eqb (status s) RECORDED
  | click_clear_all => negb (status_eqb (status s) IDLE)
  | type_text _ | click_download_text _ | click_download_audio _ =>
      has_result s
  | type_translation _ => translation_shown s
  | click_translate =>
      has_result s && negb (translation_shown s)
      && negb (status_eqb (status s) TRANSLATING)
  | click_save =>
      has_result s
      && negb (isSaving s || status_eqb (status s) TRANSLATING)
  | _ => false
  end.

(** The handler bound to the control of a user event. *)
Definition handler (e : Event) : Action :=
  match e with
  | click_record => startRecording
  | click_stop => stopRecording
  | choose_file file => handleFileChange file
  | click_transcribe => handleTranscribeNow
  | click_translate => handleTranslateNow
  | click_save => handleSaveToCloud
  | click_clear_all => reset
  | type_text value => handleTextChange text_field value
  | type_translation value => handleTextChange translatedText_field value
  | click_download_text now => downloadTranscription now
  | click_download_audio now => downloadAudio now
  | _ => skip
  end.

(** The continuation run when the environment settles an operation in
    flight; an answer that matches no such operation does nothing. *)
Definition resume (e : Event) : Action := fun w =>
  match e with
  | user_media_settled k media recorder =>
      match nth_error (pending w) k with
      | Some AwaitUserMedia =>
          (settled k ;; startRecording_resume media recorder) w
      | _ => w
      end
  | reader_settled k reader =>
      match nth_error (pending w) k with
      | Some (AwaitDataURL blob) =>
          (settled k ;;
           handleTranscribeNow_encoded blob (blobToBase64 reader)) w
      | _ => w
      end
  | transcription_settled k answer now =>
      match nth_error (pending w) k with
      | Some (AwaitTranscription blob base64) =>
          (settled k ;;
           handleTranscribeNow_transcribed blob
             (GeminiService.transcribeAmharic (fun _ => answer) base64
                (blob_type blob))
             now) w
      | _ => w
      end
  | translation_settled k answer =>
      match nth_error (pending w) k with
      | Some (AwaitTranslation amharicText) =>
          (settled k ;;
           handleTranslateNow_translated
             (GeminiService.translateToEnglish (fun _ => answer)
                amharicText)) w
      | _ => w
      end
  | save_settled k user answer now =>
      match nth_error (pending w) k with
      | Some (AwaitSave amharic english) =>
          (settled k ;;
           handleSaveToCloud_saved
             (SupabaseService.saveTranscription user (fun _ => answer)
                amharic english now)) w
      | _ => w
      end
  | timeout_fired k =>
      match nth_error (pending w) k with
      | Some SaveSuccessTimeout => (settled k ;; saveSuccess_timeout) w
      | _ => w
      end
  | recorder_stopped i event_data =>
      match nth_error (recorders w) i with
      | Some Recording | Some Stopping =>
          (set_recorders (replace_nth i Inactive (recorders w)) ;;
           ondataavailable event_data ;;
           onstop) w
      | _ => w
      end
  | _ => w
  end.

(** One event handled by the component. *)
Definition dispatch (e : Event) : Action := fun w =>
  if is_user_event e
  then if offered e (ui w) then handler e w else w
  else resume e w.

(** The component as mounted. *)
Definition init : World :=
  mkWorld (mkState IDLE None None None None false false)
    None [] [] [] [] [].

(** The world reached from [w] by the events of [trace], in order; the
    reachable worlds are the [run trace init]. *)
Definition run (trace : list Event) (w : World) : World :=
  fold_left (fun w e => dispatch e w) trace w.

End TranscriberUI.

(* ================================================================== *)
(** * services/supabaseService.ts: the auth functions *)
(* ================================================================== *)

Module SupabaseAuth.

(** A session, of which the application reads the user. *)
Record Session : Type := mkSession { session_user : SupabaseService.User }.

Record AuthData : Type := mkAuthData {
  user : option SupabaseService.User;
  session : option Session
}.

(** What [supabase.auth.signUp] and [supabase.auth.signInWithPassword]
    resolve to: [{ data, error }]. *)
Record AuthResponse : Type := mkAuthResponse {
  data : AuthData;
  error : option Error
}.

(** The calls of [signIn(email, password)] and [signUp(email, password)],
    which hand their arguments to the client. *)
Inductive AuthCall : Type :=
| signIn (email password : string)
| signUp (email password : string).

End SupabaseAuth.

(* ================================================================== *)
(** * components/AuthUI.tsx *)
(* ================================================================== *)

Module AuthUI.

Import SupabaseAuth.

(** The [useState] cells. *)
Record State : Type := mkState {
  isLogin : bool;
  email : string;
  password : string;
  loading : bool;
  error : option string;
  message : option string
}.

Definition init : State := mkState true "" "" false None None.

Definition setIsLogin (v : bool) (s : State) : State :=
  mkState v (email s) (password s) (loading s) (error s) (message s).

Definition setEmail (v : string) (s : State) : State :=
  mkState (isLogin s) v (password s) (loading s) (error s) (message s).

Definition setPassword (v : string) (s : State) : State :=
  mkState (isLogin s) (email s) v (loading s) (error s) (message s).

Definition setLoading (v : bool) (s : State) : State :=
  mkState (isLogin s) (email s) (password s) v (error s) (message s).

Definition setError (v : option string) (s : State) : State :=
  mkState (isLogin s) (email s) (password s) (loading s) v (message s).

Definition setMessage (v : option string) (s : State) : State :=
  mkState (isLogin s) (email s) (password s) (loading s) (error s) v.

Definition check_your_email : string :=
  "Check your email for the confirmation link!".

Definition authentication_fallback : string :=
  "An authentication error occurred.".

(** [handleSubmit] up to its [await]: the state it leaves and the call it
    waits for. *)
Definition handleSubmit (s : State) : State * AuthCall :=
  let s1 := setMessage None (setError None (setLoading true s)) in
  (s1, if isLogin s then signIn (email s) (password s)
       else signUp (email s) (password s)).

Definition handleSubmit_catch (err : Js.Error) (s : State) : State :=
  setError (Some (or_else (Js.message err) authentication_fallback)) s.

(** [handleSubmit] after its [await]: the [try] or the [catch], then the
    [finally]. *)
Definition handleSubmit_settled (call : AuthCall)
    (answer : Settled AuthResponse) (s : State) : State :=
  setLoading false
    match answer with
    | Rejected err => handleSubmit_catch err s
    | Resolved response =>
        match SupabaseAuth.error response with
        | Some authError => handleSubmit_catch authError s
        | None =>
            match call with
            | signIn _ _ => s
            | signUp _ _ =>
                match user (data response), session (data response) with
                | Some _, None => setMessage (Some check_your_email) s
                | _, _ => s
                end
            end
        end
    end.

(** The button under the form: [setIsLogin(!isLogin)]. *)
Definition toggle (s : State) : State := setIsLogin (negb (isLogin s)) s.

End AuthUI.

(* ================================================================== *)
(** * App.tsx *)
(* ================================================================== *)

Module App.

Import SupabaseAuth.

Record State : Type := mkState {
  session : option Session;
  loading : bool
}.

Definition init : State := mkState None true.

(** What reaches the component: the answer of [getSession()], a call of
    the [onAuthStateChange] listener, and a click on Logout, whose handler
    awaits [signOut()] and sets nothing. *)
Inductive Event : Type :=
| session_loaded (s : option Session)
| auth_state_changed (s : option Session)
| click_logout.

Definition dispatch (e : Event) (s : State) : State :=
  match e with
  | session_loaded v => mkState v false
  | auth_state_changed v => mkState v (loading s)
  | click_logout => s
  end.

Definition run (trace : list Event) (s : State) : State :=
  fold_left (fun s e => dispatch e s) trace s.

(** What [App] renders in its main area. *)
Inductive View : Type := spinner | transcriber | auth_form.

Definition view (s : State) : View :=
  if loading s then spinner
  else match session s with
       | Some _ => transcriber
       | None => auth_form
       end.

End App.

(* ================================================================== *)
(** * Vocabulary of the properties *)
(* ================================================================== *)

Import GeminiService TranscriberUI.

(** The part of the state that makes the workflow: where it stands, the
    audio waiting to be transcribed, and the result. *)
Definition same_workflow (w w' : World) : Prop :=
  status (ui w') = status (ui w)
  /\ pendingBlob (ui w') = pendingBlob (ui w)
  /\ result (ui w') = result (ui w).

(** Starting a capture fails when the microphone is refused or absent, or
    when the recorder cannot be constructed or started. *)
Definition capture_fails (media : Settled MediaStream)
    (recorder : RecorderOutcome) : bool :=
  match media with
  | Rejected _ => true
  | Resolved _ =>
      match recorder with
      | Started => false
      | ConstructorThrows | StartThrows => true
      end
  end.

(** The text export in the words of the specification: the transcript
    under its header, then the translation under a second header when
    [translatedText] is set. *)
Definition claimed_transcription_content (r : TranscriptionResult)
    : string :=
  "Original Amharic:" ++ nl ++ text r ++
  match translatedText r with
  | Some t => nl ++ nl ++ "English Translation:" ++ nl ++ t
  | None => ""
  end.

(** An uploaded recording and the answers of the environment used in the
    example traces. *)
Definition wav_file : Blob := mkBlob [Byte.x52; Byte.x49] "audio/wav".

Definition wav_data_url : string := "data:audio/wav;base64,Ukk=".

Definition reply (t : string) : Settled GenerateContentResponse :=
  Resolved (mkResponse (Some t)).

(** Upload and transcribe, each step answered before the next; the world
    it leads to is [COMPLETED] with a transcript and no translation. *)
Definition transcribed_trace : list Event :=
  [ choose_file (Some wav_file);
    click_transcribe;
    reader_settled 0 (Resolved wav_data_url);
    transcription_settled 0 (reply "selam") 1730000000000 ].

(** Then translate: [COMPLETED] with both texts. *)
Definition translated_trace : list Event :=
  transcribed_trace
  ++ [ click_translate; translation_settled 0 (reply "Hello") ].

(** Then the user empties the translation box and downloads the text. *)
Definition cleared_translation_trace : list Event :=
  translated_trace
  ++ [ type_translation ""; click_download_text 1730000000999 ].

(** Granting the microphone late: the user asks to record, and while the
    permission prompt is open uploads a file and has it transcribed; then
    the microphone is granted, the recording starts and is stopped. *)
Definition race_trace : list Event :=
  [ click_record;
    choose_file (Some wav_file);
    click_transcribe;
    reader_settled 1 (Resolved wav_data_url);
    transcription_settled 1 (reply "selam") 1730000000000;
    user_media_settled 0 (Resolved 7%nat) Started;
    click_stop;
    recorder_stopped 0 (mkBlob [Byte.x1a; Byte.x45] "audio/webm;codecs=opus") ].

(** The event can be delivered in world [w]: the control of a user event
    is rendered and enabled, the operation that the environment answers is
    in flight, the recorder that stops has not stopped yet. *)
Definition deliverable (e : Event) (w : World) : bool :=
  match e with
  | user_media_settled k _ _ =>
      match nth_error (pending w) k with
      | Some AwaitUserMedia => true
      | _ => false
      end
  | reader_settled k _ =>
      match nth_error (pending w) k with
      | Some (AwaitDataURL _) => true
      | _ => false
      end
  | transcription_settled k _ _ =>
      match nth_error (pending w) k with
      | Some (AwaitTranscription _ _) => true
      | _ => false
      end
  | translation_settled k _ =>
      match nth_error (pending w) k with
      | Some (AwaitTranslation _) => true
      | _ => false
      end
  | save_settled k _ _ _ =>
      match nth_error (pending w) k with
      | Some (AwaitSave _ _) => true
      | _ => false
      end
  | timeout_fired k =>
      match nth_error (pending w) k with
      | Some SaveSuccessTimeout => true
      | _ => false
      end
  | recorder_stopped i _ =>
      match nth_error (recorders w) i with
      | Some Recording | Some Stopping => true
      | _ => false
      end
  | _ => offered e (ui w)
  end.

(** Every event of the trace can be delivered when its turn comes. *)
Fixpoint all_deliverable (trace : list Event) (w : World) : bool :=
  match trace with
  | [] => true
  | e :: rest => deliverable e w && all_deliverable rest (dispatch e w)
  end.

(** A save has started and the store has not answered yet. *)
Definition saving_trace : list Event :=
  translated_trace ++ [ click_save ].

(** How many elements of [l] satisfy [f]. *)
Definition count_if {A} (f : A -> bool) (l : list A) : nat :=
  length (filter f l).

Definition is_save (p : Pending) : bool :=
  match p with AwaitSave _ _ => true | _ => false end.

(** How many saves are in flight. *)
Definition saves_in_flight (w : World) : nat :=
  count_if is_save (pending w).

(** What every trace keeps true of status [RECORDED]: there is pending
    audio. *)
Definition captured_has_audio (w : World) : Prop :=
  status (ui w) = RECORDED -> pendingBlob (ui w) <> None.

(** What every trace keeps true of saves: at most one is in flight, and
    while one is the flag [isSaving] is set. *)
Definition saving_invariant (w : World) : Prop :=
  saves_in_flight w <= 1
  /\ (1 <= saves_in_flight w -> isSaving (ui w) = true).

(** A blob tagged as audio: its MIME type starts with [audio/]. *)
Definition audio_blob (b : Blob) : bool := prefix "audio/" (blob_type b).

Definition audio_pending (p : Pending) : bool :=
  match p with
  | AwaitDataURL b | AwaitTranscription b _ => audio_blob b
  | _ => true
  end.

Definition audio_option (o : option Blob) : bool :=
  match o with Some b => audio_blob b | None => true end.

Definition audio_result (r : option TranscriptionResult) : bool :=
  match r with
  | Some r => match audioBlob r with Some b => audio_blob b | None => false end
  | None => true
  end.

Definition only_audio (w : World) : Prop :=
  audio_option (pendingBlob (ui w)) = true
  /\ forallb audio_pending (pending w) = true
  /\ audio_result (result (ui w)) = true.

(** The last session reported in a trace, by [getSession] or by the
    listener, if any was. *)
Fixpoint last_report (trace : list App.Event)
    : option (option SupabaseAuth.Session) :=
  match trace with
  | [] => None
  | e :: rest =>
      match last_report rest with
      | Some v => Some v
      | None =>
          match e with
          | App.session_loaded v | App.auth_state_changed v => Some v
          | App.click_logout => None
          end
      end
  end.

Definition is_session_loaded (e : App.Event) : bool :=
  match e with App.session_loaded _ => true | _ => false end.

(** A sign-in or sign-up failed: the promise was rejected or the response
    carries an error. *)
Definition auth_failed (answer : Settled SupabaseAuth.AuthResponse) : bool :=
  match answer with
  | Rejected _ => true
  | Resolved response =>
      match SupabaseAuth.error response with Some _ => true | None => false end
  end.

(** A sign-up went through and awaits confirmation: a user and no
    session. *)
Definition awaits_confirmation (call : SupabaseAuth.AuthCall)
    (answer : Settled SupabaseAuth.AuthResponse) : bool :=
  match call, answer with
  | SupabaseAuth.signUp _ _, Resolved response =>
      match SupabaseAuth.error response,
            SupabaseAuth.user (SupabaseAuth.data response),
            SupabaseAuth.session (SupabaseAuth.data response) with
      | None, Some _, None => true
      | _, _, _ => false
      end
  | _, _ => false
  end.

(** The timer of a successful save. *)
Definition is_timer (p : Pending) : bool :=
  match p with SaveSuccessTimeout => true | _ => false end.

(** What every trace keeps true of the two flags of a save: a raised
    [isSaving] has its save in flight, and a raised [saveSuccess] has its
    timer armed. *)
Definition flags_invariant (w : World) : Prop :=
  (isSaving (ui w) = true -> 1 <= count_if is_save (pending w))
  /\ (saveSuccess (ui w) = true -> 1 <= count_if is_timer (pending w)).

(* ================================================================== *)
(** * Properties *)
(* ================================================================== *)

Unset Implicit Arguments.

(** ** The engine wrapper *)

Lemma or_else_nonempty (v : option string) (d : string) :
  d <> "" -> or_else v d <> "".
Proof.
  intros Hd. unfold or_else, truthy.
  destruct v as [s|]; [|exact Hd].
  destruct (String.eqb_spec s ""); simpl; assumption.
Qed.

Lemma or_else_falsy (v : option string) (d : string) :
  truthy v = false -> or_else v d = d.
Proof. intros H. unfold or_else. now rewrite H. Qed.

(** C7: each engine call fails exactly when the provider call fails, and
    then with its own failure ([TranscriptionFailed], [TranslationFailed]);
    a provider response with empty content makes the call return its
    sentinel message, which is not empty; whatever the provider returns, the
    text returned is not empty. *)
Theorem engine_fails_iff_provider_fails (ai : GoogleGenAI)
    (base64Audio : option string) (mimeType amharicText : string) :
  (rejected (transcribeAmharic ai base64Audio mimeType)
   = rejected (ai (transcribe_request base64Audio mimeType)))
  /\ (rejected (translateToEnglish ai amharicText)
      = rejected (ai (translate_request amharicText)))
  /\ (forall e, transcribeAmharic ai base64Audio mimeType = Rejected e ->
                e = TranscriptionFailed)
  /\ (forall e, translateToEnglish ai amharicText = Rejected e ->
                e = TranslationFailed)
  /\ (forall response,
        ai (transcribe_request base64Audio mimeType) = Resolved response ->
        truthy (response_text response) = false ->
        transcribeAmharic ai base64Audio mimeType
        = Resolved no_transcription)
  /\ (forall response,
        ai (translate_request amharicText) = Resolved response ->
        truthy (response_text response) = false ->
        translateToEnglish ai amharicText = Resolved translation_failed)
  /\ (forall t, transcribeAmharic ai base64Audio mimeType = Resolved t ->
                t <> "")
  /\ (forall t, translateToEnglish ai amharicText = Resolved t -> t <> "").
Proof.
  unfold transcribeAmharic, translateToEnglish.
  destruct (ai (transcribe_request base64Audio mimeType)) as [e1|r1];
  destruct (ai (translate_request amharicText)) as [e2|r2];
  repeat split; try reflexivity; intros;
  repeat match goal with
         | H : Rejected _ = Rejected _ |- _ => inversion H; clear H; subst
         | H : Resolved _ = Resolved _ |- _ => inversion H; clear H; subst
         | H : Rejected _ = Resolved _ |- _ => discriminate H
         | H : Resolved _ = Rejected _ |- _ => discriminate H
         end;
  try reflexivity;
  try (rewrite or_else_falsy by assumption; reflexivity);
  try (apply or_else_nonempty; discriminate).
Qed.

(** A provider that answers every request with an empty response: both
    calls return their sentinel. *)
Lemma engine_fails_iff_provider_fails_witness :
  transcribeAmharic (fun _ => Resolved (mkResponse (Some ""))) (Some "AQ==")
    "audio/webm" = Resolved no_transcription
  /\ translateToEnglish (fun _ => Resolved (mkResponse None)) "selam"
     = Resolved translation_failed.
Proof.
  split.
  - apply (engine_fails_iff_provider_fails
             (fun _ => Resolved (mkResponse (Some ""))) (Some "AQ==")
             "audio/webm" "selam") with (response := mkResponse (Some ""));
      reflexivity.
  - apply (engine_fails_iff_provider_fails
             (fun _ => Resolved (mkResponse None)) (Some "AQ==")
             "audio/webm" "selam") with (response := mkResponse None);
      reflexivity.
Defined.

(** ** Operations in flight *)

Lemma nth_error_snoc {A} (l : list A) (x : A) :
  nth_error (l ++ [x]) (length l) = Some x.
Proof. induction l as [|y l IH]; simpl; [reflexivity | exact IH]. Qed.

Lemma remove_nth_snoc {A} (l : list A) (x : A) :
  remove_nth (length l) (l ++ [x]) = l.
Proof.
  induction l as [|y l IH]; simpl; [reflexivity | now rewrite IH].
Qed.

Ltac open_world w :=
  destruct w as [[? ? ? ? ? ? ?] ? ? ? ? ? ?]; cbn in *.

(** What [dispatch] does with the answer to an operation in flight. *)

Lemma dispatch_user_media_settled (w : World) (k : nat)
    (media : Settled MediaStream) (recorder : RecorderOutcome) :
  nth_error (pending w) k = Some AwaitUserMedia ->
  dispatch (user_media_settled k media recorder) w
  = startRecording_resume media recorder (settled k w).
Proof.
  intros H. unfold dispatch, resume; cbn [is_user_event].
  rewrite H. reflexivity.
Qed.

Lemma dispatch_reader_settled (w : World) (k : nat) (blob : Blob)
    (reader : Settled string) :
  nth_error (pending w) k = Some (AwaitDataURL blob) ->
  dispatch (reader_settled k reader) w
  = handleTranscribeNow_encoded blob (blobToBase64 reader) (settled k w).
Proof.
  intros H. unfold dispatch, resume; cbn [is_user_event].
  rewrite H. reflexivity.
Qed.

Lemma dispatch_transcription_settled (w : World) (k : nat) (blob : Blob)
    (base64 : option string) (a : Settled GenerateContentResponse)
    (now : Z) :
  nth_error (pending w) k = Some (AwaitTranscription blob base64) ->
  dispatch (transcription_settled k a now) w
  = handleTranscribeNow_transcribed blob
      (transcribeAmharic (fun _ => a) base64 (blob_type blob)) now
      (settled k w).
Proof.
  intros H. unfold dispatch, resume; cbn [is_user_event].
  rewrite H. reflexivity.
Qed.

Lemma dispatch_translation_settled (w : World) (k : nat)
    (amharicText : string) (a : Settled GenerateContentResponse) :
  nth_error (pending w) k = Some (AwaitTranslation amharicText) ->
  dispatch (translation_settled k a) w
  = handleTranslateNow_translated
      (translateToEnglish (fun _ => a) amharicText) (settled k w).
Proof.
  intros H. unfold dispatch, resume; cbn [is_user_event].
  rewrite H. reflexivity.
Qed.

Lemma dispatch_save_settled (w : World) (k : nat) (amharic : string)
    (english : option string) (user : option SupabaseService.User)
    (a : Settled (list SupabaseService.Row)) (now : Z) :
  nth_error (pending w) k = Some (AwaitSave amharic english) ->
  dispatch (save_settled k user a now) w
  = handleSaveToCloud_saved
      (SupabaseService.saveTranscription user (fun _ => a) amharic english
         now)
      (settled k w).
Proof.
  intros H. unfold dispatch, resume; cbn [is_user_event].
  rewrite H. reflexivity.
Qed.

(** ** reset *)

(** C2: from every state of the component, [reset] gives status [IDLE],
    no pending audio, no result and no error. *)
Theorem reset_returns_to_idle (w : World) :
  status (ui (reset w)) = IDLE
  /\ pendingBlob (ui (reset w)) = None
  /\ result (ui (reset w)) = None
  /\ error (ui (reset w)) = None.
Proof. repeat split. Qed.

(** ** The guards of the handlers *)

(** C10: [handleTranscribeNow] without pending audio, [handleTranslateNow]
    without a result and [handleSaveToCloud] without a result leave the
    whole world as it is: every state cell, and the operations in flight,
    so that no engine or store call is made. *)
Theorem guarded_handlers_do_nothing (w : World) :
  (pendingBlob (ui w) = None -> handleTranscribeNow w = w)
  /\ (result (ui w) = None -> handleTranslateNow w = w)
  /\ (result (ui w) = None -> handleSaveToCloud w = w).
Proof.
  unfold handleTranscribeNow, handleTranslateNow, handleSaveToCloud.
  repeat split; intros H; rewrite H; reflexivity.
Qed.

Lemma guarded_handlers_do_nothing_witness :
  handleTranscribeNow init = init
  /\ handleTranslateNow init = init
  /\ handleSaveToCloud init = init.
Proof.
  destruct (guarded_handlers_do_nothing init) as (H1 & H2 & H3).
  split; [exact (H1 eq_refl) | split; [exact (H2 eq_refl) | exact (H3 eq_refl)]].
Defined.

(** ** Translation *)

(** The continuation of a failed translation, run in any state, touches
    the status and the error and nothing else. *)
Lemma translation_failure_frame (w : World) (err : Error) :
  let w' := handleTranslateNow_translated (Rejected err) w in
  result (ui w') = result (ui w)
  /\ pendingBlob (ui w') = pendingBlob (ui w)
  /\ status (ui w') = COMPLETED
  /\ error (ui w')
     = Some (or_else (message err) "An error occurred during translation.").
Proof. repeat split. Qed.

(** C1: in status [COMPLETED] with a result, a translation whose engine
    call fails leaves the result as it was (its text and its translation),
    ends in status [COMPLETED] and sets the error message. *)
Theorem translation_failure_keeps_result (w : World)
    (r : TranscriptionResult) (reason : Error) :
  status (ui w) = COMPLETED ->
  result (ui w) = Some r ->
  let w1 := handleTranslateNow w in
  let w2 :=
    dispatch (translation_settled (length (pending w)) (Rejected reason)) w1
  in
  status (ui w1) = TRANSLATING
  /\ result (ui w2) = Some r
  /\ status (ui w2) = COMPLETED
  /\ error (ui w2) = Some "Failed to translate text."
  /\ pending w2 = pending w.
Proof.
  intros Hs Hr w1 w2.
  assert (H1 : w1 = (setStatus TRANSLATING ;;
                     await (AwaitTranslation (text r))) w).
  { unfold w1, handleTranslateNow. now rewrite Hr. }
  assert (H2 : w2 = handleTranslateNow_translated
                      (Rejected TranslationFailed)
                      (settled (length (pending w)) w1)).
  { unfold w2. rewrite H1.
    rewrite dispatch_translation_settled with (amharicText := text r)
      by apply nth_error_snoc.
    reflexivity. }
  rewrite H2, H1. repeat split.
  - exact Hr.
  - apply remove_nth_snoc.
Qed.

(** After an upload and its transcription, a translation that the
    provider refuses. *)
Lemma translation_failure_keeps_result_witness :
  let r := mkResult "selam" None 1730000000000 (Some wav_file) in
  let w := run transcribed_trace init in
  let w2 :=
    dispatch (translation_settled 0 (Rejected (new_Error "quota")))
      (handleTranslateNow w) in
  result (ui w2) = Some r /\ status (ui w2) = COMPLETED
  /\ error (ui w2) = Some "Failed to translate text.".
Proof.
  intros r w w2.
  destruct (translation_failure_keeps_result w r (new_Error "quota")
              eq_refl eq_refl) as (_ & H1 & H2 & H3 & _).
  split; [exact H1 | split; [exact H2 | exact H3]].
Defined.

(** ** Saving *)

(** The continuations of a save, run in any state, leave the workflow as
    it is: the one after [saveTranscription] whatever it returned, and the
    timer's callback. *)
Lemma save_continuations_frame (w : World)
    (saved : Settled (list SupabaseService.Row)) :
  same_workflow w (handleSaveToCloud_saved saved w)
  /\ same_workflow w (saveSuccess_timeout w).
Proof. destruct saved; repeat split. Qed.

(** C3: with a result present, a save leaves the status, the pending
    audio and the result as they are, when it starts and when the store has
    answered, whether with rows or with an error; without a signed-in user
    [saveTranscription] fails with [Unauthenticated] whatever the store
    would answer, the error message is set, and a status [COMPLETED] stays
    [COMPLETED]. *)
Theorem save_leaves_workflow_unchanged (w : World)
    (r : TranscriptionResult) (user : option SupabaseService.User)
    (answer : Settled (list SupabaseService.Row)) (now : Z) :
  result (ui w) = Some r ->
  let w1 := handleSaveToCloud w in
  let w2 :=
    dispatch (save_settled (length (pending w)) user answer now) w1 in
  pending w1 = pending w ++ [AwaitSave (text r) (translatedText r)]
  /\ same_workflow w w1
  /\ same_workflow w w2
  /\ isSaving (ui w1) = true
  /\ isSaving (ui w2) = false
  /\ (user = None ->
      SupabaseService.saveTranscription user (fun _ => answer) (text r)
        (translatedText r) now
      = Rejected SupabaseService.Unauthenticated
      /\ error (ui w2)
         = Some
             "Failed to save to Supabase: User must be logged in to save data."
      /\ saveSuccess (ui w2) = false
      /\ (status (ui w) = COMPLETED -> status (ui w2) = COMPLETED)).
Proof.
  intros Hr w1 w2.
  assert (H1 : w1 = (setIsSaving true ;; setSaveSuccess false ;;
                     await (AwaitSave (text r) (translatedText r))) w).
  { unfold w1, handleSaveToCloud. now rewrite Hr. }
  assert (H2 : w2 = handleSaveToCloud_saved
                      (SupabaseService.saveTranscription user
                         (fun _ => answer) (text r) (translatedText r) now)
                      (settled (length (pending w)) w1)).
  { unfold w2. rewrite H1.
    rewrite dispatch_save_settled
      with (amharic := text r) (english := translatedText r)
      by apply nth_error_snoc.
    reflexivity. }
  split; [rewrite H1; reflexivity|].
  split; [rewrite H1; repeat split|].
  split.
  { rewrite H2.
    destruct (save_continuations_frame (settled (length (pending w)) w1)
                (SupabaseService.saveTranscription user (fun _ => answer)
                   (text r) (translatedText r) now))
      as ((Ha & Hb & Hc) & _).
    rewrite H1 in Ha, Hb, Hc |- *.
    repeat split; [rewrite Ha | rewrite Hb | rewrite Hc]; reflexivity. }
  split; [rewrite H1; reflexivity|].
  split.
  { rewrite H2.
    destruct (SupabaseService.saveTranscription user (fun _ => answer)
                (text r) (translatedText r) now); reflexivity. }
  intros Hu. rewrite H2, H1, Hu. repeat split. auto.
Qed.

(** The scenario of the specification: an [audio/wav] upload is
    transcribed and translated, then saved without a session. *)
Lemma save_leaves_workflow_unchanged_witness :
  let r := mkResult "selam" (Some "Hello") 1730000000000 (Some wav_file) in
  let w := run translated_trace init in
  let w2 := dispatch (save_settled 0 None (Resolved []) 1730000000999)
              (handleSaveToCloud w) in
  same_workflow w w2
  /\ status (ui w2) = COMPLETED
  /\ error (ui w2)
     = Some "Failed to save to Supabase: User must be logged in to save data.".
Proof.
  intros r w w2.
  destruct (save_leaves_workflow_unchanged w r None (Resolved [])
              1730000000999 eq_refl) as (_ & _ & H2 & _ & _ & H5).
  destruct (H5 eq_refl) as (_ & He & _ & Hs).
  split; [exact H2 | split; [exact (Hs eq_refl) | exact He]].
Defined.

(** ** Starting a capture *)

(** C8: when starting a capture fails, the workflow ends in status
    [IDLE] with the [DeviceUnavailable] message as its error and with no
    pending audio: none was there after the handler's first steps and the
    failure creates none. *)
Theorem capture_failure_returns_to_idle (w : World)
    (media : Settled MediaStream) (recorder : RecorderOutcome) :
  capture_fails media recorder = true ->
  let w1 := startRecording w in
  let w2 :=
    dispatch (user_media_settled (length (pending w)) media recorder) w1 in
  status (ui w2) = IDLE
  /\ error (ui w2) = Some DeviceUnavailable
  /\ pendingBlob (ui w2) = None
  /\ result (ui w2) = None
  /\ audioChunksRef w2 = []
  /\ pending w2 = pending w.
Proof.
  intros Hf w1 w2. subst w2.
  rewrite dispatch_user_media_settled by apply nth_error_snoc.
  assert (Hs : pending (settled (length (pending w)) w1) = pending w)
    by apply remove_nth_snoc.
  destruct media as [e|m]; [|destruct recorder; try discriminate Hf];
    repeat split; exact Hs.
Qed.

Lemma capture_failure_returns_to_idle_witness :
  let w2 :=
    dispatch
      (user_media_settled 0 (Rejected (new_Error "Permission denied"))
         Started)
      (startRecording init) in
  status (ui w2) = IDLE
  /\ error (ui w2) = Some DeviceUnavailable
  /\ pendingBlob (ui w2) = None.
Proof.
  intros w2.
  destruct (capture_failure_returns_to_idle init
              (Rejected (new_Error "Permission denied")) Started eq_refl)
    as (H1 & H2 & H3 & _).
  split; [exact H1 | split; [exact H2 | exact H3]].
Defined.

(** ** Editing the translation *)

(** C5: on a result whose translation is unset an edit of the translation
    changes nothing, and the field stays unset: the box that edits the
    translation is rendered only for a translation that is set and not
    empty.  An edit of the translation that changes anything finds a
    translation already there. *)
Theorem translation_edit_reaches_only_shown_field (w : World) (v : string) :
  (forall r, result (ui w) = Some r -> translatedText r = None ->
     dispatch (type_translation v) w = w)
  /\ (dispatch (type_translation v) w <> w ->
      exists r t,
        result (ui w) = Some r /\ translatedText r = Some t /\ t <> "").
Proof.
  split.
  - intros r Hr Ht. unfold dispatch; cbn [is_user_event offered].
    unfold translation_shown. rewrite Hr, Ht. reflexivity.
  - unfold dispatch; cbn [is_user_event offered].
    unfold translation_shown.
    destruct (result (ui w)) as [r|]; [|intros H; now elim H].
    destruct (translatedText r) as [t|] eqn:Ht; cbn [truthy];
      [|intros H; now elim H].
    destruct (String.eqb_spec t "") as [->|Hne]; cbn [negb];
      [intros H; now elim H|].
    intros _. exists r, t. repeat split; assumption.
Qed.

(** After a transcription the translation is unset, and typing into the
    translation changes nothing. *)
Lemma translation_edit_reaches_only_shown_field_witness :
  let w := run transcribed_trace init in
  result (ui w)
  = Some (mkResult "selam" None 1730000000000 (Some wav_file))
  /\ dispatch (type_translation "x") w = w.
Proof.
  intros w.
  destruct (translation_edit_reaches_only_shown_field w "x") as (H & _).
  split; [reflexivity|].
  exact (H (mkResult "selam" None 1730000000000 (Some wav_file))
           eq_refl eq_refl).
Defined.

(** ** Exports *)

Lemma string_app_assoc (a b c : string) :
  ((a ++ b) ++ c = a ++ (b ++ c))%string.
Proof. induction a as [|x a IH]; simpl; [reflexivity | now rewrite IH]. Qed.

Lemma string_app_empty_r (a : string) : (a ++ "" = a)%string.
Proof. induction a as [|x a IH]; simpl; [reflexivity | now rewrite IH]. Qed.

Lemma split_no_separator (sep : ascii) (s : string) :
  occurs sep s = false -> split sep s = [s].
Proof.
  induction s as [|c s IH]; simpl; intros H; [reflexivity|].
  apply orb_false_iff in H. destruct H as [Hc Hs].
  rewrite Hc, (IH Hs). reflexivity.
Qed.

Lemma split_at_first_separator (sep : ascii) (a b : string) :
  occurs sep a = false ->
  split sep (a ++ String sep b) = a :: split sep b.
Proof.
  induction a as [|c a IH]; simpl; intros H.
  - now rewrite Ascii.eqb_refl.
  - apply orb_false_iff in H. destruct H as [Hc Ha].
    rewrite Hc, (IH Ha). reflexivity.
Qed.

Lemma audio_extension_of_subtype (bytes : list Byte.byte)
    (major sub : string) :
  occurs "/" major = false -> occurs "/" sub = false ->
  audio_extension (mkBlob bytes (major ++ "/" ++ sub))
  = if sub =? "" then "webm" else sub.
Proof.
  intros Hm Hs. unfold audio_extension; cbn [blob_type].
  change (major ++ "/" ++ sub)%string with (major ++ String "/" sub)%string.
  rewrite split_at_first_separator by exact Hm.
  rewrite split_no_separator by exact Hs.
  unfold index, or_else, truthy; cbn.
  destruct (sub =? ""); reflexivity.
Qed.

Lemma audio_extension_without_subtype (bytes : list Byte.byte)
    (type : string) :
  occurs "/" type = false ->
  audio_extension (mkBlob bytes type) = "webm".
Proof.
  intros H. unfold audio_extension; cbn [blob_type].
  rewrite split_no_separator by exact H. reflexivity.
Qed.

(** C9, as amended: with a result, the text export is a [text/plain]
    payload named [amharic-transcription-<epoch millis>.txt]; it holds the
    transcript under the header [Original Amharic:], followed by the
    translation under the header [English Translation:] when the
    translation is set and not empty, and by nothing when it is unset or
    empty.  The audio export hands out the blob unchanged under the name
    [amharic-audio-<epoch millis>.<extension>], where the extension is the
    subtype of the blob's MIME type, and [webm] when the type has no slash
    or nothing after it. *)
Theorem export_artifacts (w : World) (r : TranscriptionResult) (now : Z) :
  result (ui w) = Some r ->
  downloads (downloadTranscription now w)
  = (downloads w
     ++ [mkDownload
           ("amharic-transcription-" ++ number_to_string now ++ ".txt")
           (text_payload (transcription_content r)
              "text/plain;charset=utf-8")])%list
  /\ (translatedText r <> Some "" ->
      transcription_content r = claimed_transcription_content r)
  /\ (translatedText r = Some "" ->
      transcription_content r = ("Original Amharic:" ++ nl ++ text r)%string)
  /\ (forall blob, audio_to_download (ui w) = Some blob ->
      downloads (downloadAudio now w)
      = (downloads w
         ++ [mkDownload
               ("amharic-audio-" ++ number_to_string now ++ "."
                ++ audio_extension blob)
               (blob_payload blob)])%list)
  /\ (forall bytes major sub,
        occurs "/" major = false -> occurs "/" sub = false ->
        audio_extension (mkBlob bytes (major ++ "/" ++ sub))
        = if sub =? "" then "webm" else sub)
  /\ (forall bytes type,
        occurs "/" type = false ->
        audio_extension (mkBlob bytes type) = "webm")
  /\ same_workflow w (downloadTranscription now w)
  /\ same_workflow w (downloadAudio now w).
Proof.
  intros Hr. repeat split.
  - unfold downloadTranscription. rewrite Hr. reflexivity.
  - intros Ht. unfold transcription_content, claimed_transcription_content.
    destruct (translatedText r) as [t|].
    + assert (Htr : truthy (Some t) = true).
      { unfold truthy.
        destruct (String.eqb_spec t ""); [subst; congruence | reflexivity]. }
      rewrite Htr. unfold to_string.
      rewrite !string_app_assoc. reflexivity.
    + change (truthy None) with false. cbv iota.
      rewrite string_app_empty_r. reflexivity.
  - intros Ht. unfold transcription_content. rewrite Ht. reflexivity.
  - intros blob Hb. unfold downloadAudio. rewrite Hb. reflexivity.
  - intros. now apply audio_extension_of_subtype.
  - intros. now apply audio_extension_without_subtype.
  - unfold downloadTranscription. now rewrite Hr.
  - unfold downloadTranscription. now rewrite Hr.
  - unfold downloadTranscription. now rewrite Hr.
  - unfold downloadAudio. now destruct (audio_to_download (ui w)).
  - unfold downloadAudio. now destruct (audio_to_download (ui w)).
  - unfold downloadAudio. now destruct (audio_to_download (ui w)).
Qed.

(** ** Invariants of the traces *)

(** Counting through the list operations of the model. *)
Lemma count_if_app {A} (f : A -> bool) (l l' : list A) :
  count_if f (l ++ l') = count_if f l + count_if f l'.
Proof. unfold count_if. now rewrite filter_app, length_app. Qed.

Lemma count_if_remove_nth {A} (f : A -> bool) (l : list A) (k : nat) (x : A) :
  nth_error l k = Some x ->
  count_if f (remove_nth k l) + (if f x then 1 else 0) = count_if f l.
Proof.
  revert k. induction l as [|y l IH]; intros [|k] H; try discriminate H.
  - injection H as ->. unfold count_if; simpl. destruct (f x); simpl; lia.
  - simpl in H. specialize (IH k H). unfold count_if in *; simpl.
    destruct (f y); simpl; lia.
Qed.

Lemma count_if_replace_nth {A} (f : A -> bool) (l : list A) (i : nat)
    (x y : A) :
  nth_error l i = Some x ->
  count_if f (replace_nth i y l) + (if f x then 1 else 0)
  = count_if f l + (if f y then 1 else 0).
Proof.
  revert i. induction l as [|z l IH]; intros [|i] H; try discriminate H.
  - injection H as ->. unfold count_if; simpl.
    destruct (f x), (f y); simpl; lia.
  - simpl in H. specialize (IH i H). unfold count_if in *; simpl.
    destruct (f z); simpl; lia.
Qed.

Lemma status_eqb_eq a b : status_eqb a b = true <-> a = b.
Proof. destruct a, b; simpl; split; congruence. Qed.

(** Read a cell off a world built by setters. *)
Ltac proj :=
  cbn [pending recorders ui result status setStatus setPendingBlob
       setResult updateResult setError setStream setIsSaving setSaveSuccess
       with_ui set_pending set_recorders set_stoppedStreams set_downloads
       set_audioChunksRef set_mediaRecorderRef download].

(** Every event keeps the pending audio of status [RECORDED]: the pending
    audio is only cleared by [reset], which leaves [RECORDED], and by
    [startRecording], which is offered in status [IDLE] only. *)
Lemma captured_has_audio_step (e : Event) (w : World) :
  captured_has_audio w -> captured_has_audio (dispatch e w).
Proof.
  intros Hinv. unfold dispatch.
  destruct (is_user_event e) eqn:He.
  - destruct (offered e (ui w)) eqn:Hoff; [|exact Hinv].
    unfold captured_has_audio in *.
    destruct e; try discriminate He; cbn [handler].
    + apply status_eqb_eq in Hoff.
      unfold startRecording, andThen, await. proj. congruence.
    + unfold stopRecording.
      destruct (mediaRecorderRef w) as [i|]; [|exact Hinv].
      destruct (status_eqb (status (ui w)) RECORDING); [|exact Hinv].
      unfold andThen, recorder_stop.
      destruct (nth_error (recorders w) i) as [[]|];
        destruct (stream (ui w)); unfold stop_tracks; proj; exact Hinv.
    + unfold handleFileChange.
      destruct file as [f|]; [destruct (prefix "audio/" (blob_type f))|];
        unfold andThen, skip; proj; try exact Hinv. discriminate.
    + unfold handleTranscribeNow.
      destruct (pendingBlob (ui w)) as [b|] eqn:E; [|now rewrite E].
      unfold andThen, await. proj. discriminate.
    + unfold handleTranslateNow.
      destruct (result (ui w)) as [r|]; [|exact Hinv].
      unfold andThen, await. proj. discriminate.
    + unfold handleSaveToCloud.
      destruct (result (ui w)) as [r|]; [|exact Hinv].
      unfold andThen, await. proj. exact Hinv.
    + unfold reset, andThen. proj. discriminate.
    + unfold handleTextChange. proj. exact Hinv.
    + unfold handleTextChange. proj. exact Hinv.
    + unfold downloadTranscription.
      destruct (result (ui w)) as [r|]; [|exact Hinv]. proj. exact Hinv.
    + unfold downloadAudio.
      destruct (audio_to_download (ui w)) as [b|]; [|exact Hinv].
      proj. exact Hinv.
  - unfold captured_has_audio in *.
    destruct e; try discriminate He; unfold resume.
    + destruct (nth_error (pending w) k) as [[]|]; try exact Hinv.
      unfold andThen, settled, startRecording_resume, startRecording_catch,
        new_MediaRecorder.
      destruct media as [err|m]; [|destruct recorder]; unfold andThen; proj;
        discriminate.
    + destruct (nth_error (pending w) k) as [[]|]; try exact Hinv.
      unfold andThen, settled, handleTranscribeNow_encoded,
        handleTranscribeNow_catch, blobToBase64.
      destruct reader as [err|url]; unfold andThen, await; proj;
        [discriminate | exact Hinv].
    + destruct (nth_error (pending w) k) as [[]|]; try exact Hinv.
      unfold andThen, settled, handleTranscribeNow_transcribed,
        handleTranscribeNow_catch, transcribeAmharic.
      destruct answer as [err|response]; unfold andThen; proj; discriminate.
    + destruct (nth_error (pending w) k) as [[]|]; try exact Hinv.
      unfold andThen, settled, handleTranslateNow_translated,
        translateToEnglish.
      destruct answer as [err|response]; unfold andThen; proj; discriminate.
    + destruct (nth_error (pending w) k) as [[]|]; try exact Hinv.
      unfold andThen, settled, handleSaveToCloud_saved.
      destruct (SupabaseService.saveTranscription user (fun _ => answer)
                  amharic english now);
        unfold andThen, await; proj; exact Hinv.
    + destruct (nth_error (pending w) k) as [[]|]; exact Hinv.
    + destruct (nth_error (recorders w) i) as [[]|]; try exact Hinv;
        unfold andThen, ondataavailable, onstop, andThen; proj;
        destruct (0 <? blob_size event_data)%nat; proj; discriminate.
Qed.

(** Every event keeps the saving invariant: the button starts a save only
    while the flag is down, and the flag goes down only when the one save
    in flight is answered. *)
Lemma saving_step (e : Event) (w : World) :
  saving_invariant w -> saving_invariant (dispatch e w).
Proof.
  intros Hinv. pose proof Hinv as (Ha & Hb).
  unfold saves_in_flight in Ha, Hb.
  unfold dispatch.
  destruct (is_user_event e) eqn:He.
  - destruct (offered e (ui w)) eqn:Hoff; [|exact Hinv].
    unfold saving_invariant, saves_in_flight in *.
    destruct e; try discriminate He; cbn [handler].
    + unfold startRecording, andThen, await. proj.
      rewrite count_if_app. cbn. split; [lia | intros; apply Hb; lia].
    + unfold stopRecording.
      destruct (mediaRecorderRef w) as [i|]; [|exact Hinv].
      destruct (status_eqb (status (ui w)) RECORDING); [|exact Hinv].
      unfold andThen, recorder_stop.
      destruct (nth_error (recorders w) i) as [[]|];
        destruct (stream (ui w)); unfold stop_tracks; proj; exact Hinv.
    + unfold handleFileChange.
      destruct file as [f|]; [destruct (prefix "audio/" (blob_type f))|];
        unfold andThen, skip; proj; exact Hinv.
    + unfold handleTranscribeNow.
      destruct (pendingBlob (ui w)) as [b|]; [|exact Hinv].
      unfold andThen, await. proj.
      rewrite count_if_app. cbn. split; [lia | intros; apply Hb; lia].
    + unfold handleTranslateNow.
      destruct (result (ui w)) as [r|]; [|exact Hinv].
      unfold andThen, await. proj.
      rewrite count_if_app. cbn. split; [lia | intros; apply Hb; lia].
    + cbn [offered] in Hoff.
      apply andb_true_iff in Hoff. destruct Hoff as [_ Hoff].
      apply negb_true_iff, orb_false_iff in Hoff. destruct Hoff as [Hs _].
      assert (H0 : count_if is_save (pending w) = 0).
      { destruct (count_if is_save (pending w)) eqn:E; [reflexivity|].
        rewrite Hb in Hs by lia. discriminate. }
      unfold handleSaveToCloud.
      destruct (result (ui w)) as [r|]; [|exact Hinv].
      unfold andThen, await. proj.
      rewrite count_if_app, H0. cbn. split; [lia | reflexivity].
    + unfold reset, andThen. proj. exact Hinv.
    + unfold handleTextChange. proj. exact Hinv.
    + unfold handleTextChange. proj. exact Hinv.
    + unfold downloadTranscription.
      destruct (result (ui w)) as [r|]; [|exact Hinv]. proj. exact Hinv.
    + unfold downloadAudio.
      destruct (audio_to_download (ui w)) as [b|]; [|exact Hinv].
      proj. exact Hinv.
  - unfold saving_invariant, saves_in_flight in *.
    destruct e; try discriminate He; unfold resume.
    + destruct (nth_error (pending w) k) as [[]|] eqn:E; try exact Hinv.
      pose proof (@count_if_remove_nth _ is_save _ _ _ E) as Hk.
      cbn [is_save] in Hk.
      unfold andThen, settled, startRecording_resume, startRecording_catch,
        new_MediaRecorder.
      destruct media as [err|m]; [|destruct recorder]; unfold andThen; proj;
        (split; [lia | intros; apply Hb; lia]).
    + destruct (nth_error (pending w) k) as [[]|] eqn:E; try exact Hinv.
      pose proof (@count_if_remove_nth _ is_save _ _ _ E) as Hk.
      cbn [is_save] in Hk.
      unfold andThen, settled, handleTranscribeNow_encoded,
        handleTranscribeNow_catch, blobToBase64.
      destruct reader as [err|url]; unfold andThen, await; proj;
        rewrite ?count_if_app; cbn [count_if filter is_save length];
        (split; [lia | intros; apply Hb; lia]).
    + destruct (nth_error (pending w) k) as [[]|] eqn:E; try exact Hinv.
      pose proof (@count_if_remove_nth _ is_save _ _ _ E) as Hk.
      cbn [is_save] in Hk.
      unfold andThen, settled, handleTranscribeNow_transcribed,
        handleTranscribeNow_catch, transcribeAmharic.
      destruct answer as [err|response]; unfold andThen; proj;
        (split; [lia | intros; apply Hb; lia]).
    + destruct (nth_error (pending w) k) as [[]|] eqn:E; try exact Hinv.
      pose proof (@count_if_remove_nth _ is_save _ _ _ E) as Hk.
      cbn [is_save] in Hk.
      unfold andThen, settled, handleTranslateNow_translated,
        translateToEnglish.
      destruct answer as [err|response]; unfold andThen; proj;
        (split; [lia | intros; apply Hb; lia]).
    + destruct (nth_error (pending w) k) as [[]|] eqn:E; try exact Hinv.
      pose proof (@count_if_remove_nth _ is_save _ _ _ E) as Hk.
      cbn [is_save] in Hk.
      unfold andThen, settled, handleSaveToCloud_saved.
      destruct (SupabaseService.saveTranscription user (fun _ => answer)
                  amharic english now);
        unfold andThen, await; proj; rewrite ?count_if_app;
        cbn [count_if filter is_save length];
        (split; [lia | intros; lia]).
    + destruct (nth_error (pending w) k) as [[]|] eqn:E; try exact Hinv.
      pose proof (@count_if_remove_nth _ is_save _ _ _ E) as Hk.
      cbn [is_save] in Hk.
      unfold andThen, settled, saveSuccess_timeout. proj.
      split; [lia | intros; apply Hb; lia].
    + destruct (nth_error (recorders w) i) as [[]|]; try exact Hinv;
        unfold andThen, ondataavailable, onstop, andThen; proj;
        destruct (0 <? blob_size event_data)%nat; proj; exact Hinv.
Qed.

Lemma captured_has_audio_run (trace : list Event) (w : World) :
  captured_has_audio w -> captured_has_audio (run trace w).
Proof.
  revert w. induction trace as [|e trace IH]; intros w Hinv; [exact Hinv|].
  cbn [run fold_left]. apply IH, captured_has_audio_step, Hinv.
Qed.

Lemma saving_run (trace : list Event) (w : World) :
  saving_invariant w -> saving_invariant (run trace w).
Proof.
  revert w. induction trace as [|e trace IH]; intros w Hinv; [exact Hinv|].
  cbn [run fold_left]. apply IH, saving_step, Hinv.
Qed.

Lemma saving_invariant_init : saving_invariant init.
Proof. split; cbn; [lia | intros H; inversion H]. Qed.

(** ** Status RECORDED *)

(** C6: in every reachable state with status [RECORDED] there is pending
    audio, but the result need not be null there.  [startRecording] clears
    the result before it asks for the microphone, and nothing holds the
    rest of the handler back when a result has come meanwhile: with the
    microphone granted only after an uploaded file has been transcribed,
    stopping the recording leads to status [RECORDED] with that result
    still set.  Every event of this trace can be delivered when its turn
    comes. *)
Theorem recorded_keeps_result_after_late_grant :
  (forall trace,
     status (ui (run trace init)) = RECORDED ->
     pendingBlob (ui (run trace init)) <> None)
  /\ (forall w, result (ui (startRecording w)) = None)
  /\ all_deliverable race_trace init = true
  /\ status (ui (run race_trace init)) = RECORDED
  /\ pendingBlob (ui (run race_trace init))
     = Some (mkBlob [Byte.x1a; Byte.x45] "audio/webm")
  /\ result (ui (run race_trace init))
     = Some (mkResult "selam" None 1730000000000 (Some wav_file)).
Proof.
  split.
  - intros trace. apply (captured_has_audio_run trace init).
    intros H; discriminate H.
  - split; [reflexivity|]. vm_compute. repeat split.
Qed.

(** ** A second save *)

(** C4: in every reachable state at most one save is in flight, and
    while one is the flag [isSaving] is raised; while the flag is raised the
    Save button is disabled, so that a second invocation of save is ignored:
    it leaves the whole world as it is, the operations in flight included,
    and so makes no persistence call. *)
Theorem save_button_ignores_second_save (trace : list Event) :
  let w := run trace init in
  (isSaving (ui w) = true -> dispatch click_save w = w)
  /\ saves_in_flight w <= 1
  /\ (1 <= saves_in_flight w -> isSaving (ui w) = true)
  /\ (1 <= saves_in_flight w -> dispatch click_save w = w).
Proof.
  intros w. destruct (saving_run trace init saving_invariant_init) as [Ha Hb].
  fold w in Ha, Hb.
  assert (Hc : isSaving (ui w) = true -> dispatch click_save w = w).
  { intros Hs. unfold dispatch; cbn [is_user_event offered].
    rewrite Hs. cbn [orb negb]. rewrite andb_false_r. reflexivity. }
  split; [exact Hc | split; [exact Ha | split; [exact Hb|]]].
  intros H. apply Hc, Hb, H.
Qed.

(** A save has been started and the store has not answered: a second
    click on Save changes nothing. *)
Lemma save_button_ignores_second_save_witness :
  let w := run saving_trace init in
  isSaving (ui w) = true
  /\ pending w = [AwaitSave "selam" (Some "Hello")]
  /\ dispatch click_save w = w.
Proof.
  intros w.
  destruct (save_button_ignores_second_save saving_trace) as (H1 & _).
  split; [reflexivity|]. split; [reflexivity|].
  apply H1. reflexivity.
Defined.

(** ** The text export with an emptied translation *)

Lemma export_artifacts_witness :
  let w := run translated_trace init in
  downloads (downloadTranscription 1730000000999 w)
  = [mkDownload "amharic-transcription-1730000000999.txt"
       (text_payload
          ("Original Amharic:" ++ nl ++ "selam" ++ nl ++ nl
           ++ "English Translation:" ++ nl ++ "Hello")
          "text/plain;charset=utf-8")]
  /\ downloads (downloadAudio 1730000000999 w)
     = [mkDownload "amharic-audio-1730000000999.wav"
          (blob_payload wav_file)].
Proof.
  intros w.
  destruct (export_artifacts w
              (mkResult "selam" (Some "Hello") 1730000000000
                 (Some wav_file))
              1730000000999 eq_refl)
    as (H1 & _ & _ & H4 & _).
  split; [exact H1 | exact (H4 wav_file eq_refl)].
Defined.

(** C9 as it was stated fails: after the user has emptied the translation
    box the translation is set, to the empty string, and the text export
    holds the transcript only, without the second header. *)
Lemma text_export_counterexample :
  let w := run cleared_translation_trace init in
  result (ui w)
  = Some (mkResult "selam" (Some "") 1730000000000 (Some wav_file))
  /\ downloads w
     = [mkDownload "amharic-transcription-1730000000999.txt"
          (text_payload ("Original Amharic:" ++ nl ++ "selam")
             "text/plain;charset=utf-8")]
  /\ transcription_content
       (mkResult "selam" (Some "") 1730000000000 (Some wav_file))
     <> claimed_transcription_content
          (mkResult "selam" (Some "") 1730000000000 (Some wav_file)).
Proof.
  vm_compute. repeat split. discriminate.
Qed.

(* ================================================================== *)
(** * Further properties of the code *)
(* ================================================================== *)

Lemma dispatch_user_event (e : Event) (w : World) :
  is_user_event e = true -> offered e (ui w) = true ->
  dispatch e w = handler e w.
Proof. intros He Ho. unfold dispatch. now rewrite He, Ho. Qed.

Lemma dispatch_timeout_fired (w : World) (k : nat) :
  nth_error (pending w) k = Some SaveSuccessTimeout ->
  dispatch (timeout_fired k) w = saveSuccess_timeout (settled k w).
Proof.
  intros H. unfold dispatch, resume; cbn [is_user_event].
  rewrite H. reflexivity.
Qed.

Lemma dispatch_recorder_stopped (w : World) (i : nat) (event_data : Blob) :
  nth_error (recorders w) i = Some Stopping ->
  dispatch (recorder_stopped i event_data) w
  = onstop (ondataavailable event_data
              (set_recorders (replace_nth i Inactive (recorders w)) w)).
Proof.
  intros H. unfold dispatch, resume; cbn [is_user_event].
  rewrite H. reflexivity.
Qed.

Lemma replace_nth_snoc {A} (l : list A) (x y : A) :
  replace_nth (length l) y (l ++ [x]) = l ++ [y].
Proof. induction l as [|z l IH]; simpl; [reflexivity | now rewrite IH]. Qed.

(** ** Transcription *)

(** X1: with pending audio, [handleTranscribeNow] followed by the data URL
    of the audio and by a response of the provider ends in status
    [COMPLETED] with a fresh result: the provider's text (or the sentinel),
    no translation, the clock's time, and the audio that was pending when
    the handler started.  The pending audio and the error message are left
    as they were, and the audio offered for download is the transcribed
    one. *)
Theorem transcription_success (w : World) (blob : Blob) (url : string)
    (response : GenerateContentResponse) (now : Z) :
  pendingBlob (ui w) = Some blob ->
  let w1 := handleTranscribeNow w in
  let w2 := dispatch (reader_settled (length (pending w)) (Resolved url)) w1 in
  let w3 :=
    dispatch (transcription_settled (length (pending w)) (Resolved response)
                now) w2 in
  status (ui w1) = TRANSCRIBING
  /\ pending w2
     = pending w
       ++ [AwaitTranscription blob (index (split (ascii_of_nat 44) url) 1)]
  /\ status (ui w3) = COMPLETED
  /\ result (ui w3)
     = Some (mkResult (or_else (response_text response) no_transcription)
               None now (Some blob))
  /\ pendingBlob (ui w3) = Some blob
  /\ audio_to_download (ui w3) = Some blob
  /\ error (ui w3) = error (ui w)
  /\ pending w3 = pending w.
Proof.
  intros Hp w1 w2 w3.
  assert (H1 : w1 = (setStatus TRANSCRIBING ;; await (AwaitDataURL blob)) w).
  { unfold w1, handleTranscribeNow. now rewrite Hp. }
  assert (H2 : w2 = await (AwaitTranscription blob
                             (index (split (ascii_of_nat 44) url) 1))
                      (settled (length (pending w)) w1)).
  { unfold w2. rewrite H1.
    rewrite dispatch_reader_settled with (blob := blob)
      by apply nth_error_snoc.
    reflexivity. }
  assert (Hs : pending (settled (length (pending w)) w1) = pending w).
  { rewrite H1. apply remove_nth_snoc. }
  assert (Hq : pending w2
               = pending w ++ [AwaitTranscription blob
                                 (index (split (ascii_of_nat 44) url) 1)]).
  { rewrite H2. unfold await. cbn [pending set_pending]. now rewrite Hs. }
  assert (H3 : w3 = handleTranscribeNow_transcribed blob
                      (Resolved (or_else (response_text response)
                                   no_transcription))
                      now (settled (length (pending w)) w2)).
  { unfold w3.
    rewrite dispatch_transcription_settled
      with (blob := blob) (base64 := index (split (ascii_of_nat 44) url) 1)
      by (rewrite Hq; apply nth_error_snoc).
    reflexivity. }
  split; [rewrite H1; reflexivity|].
  split; [exact Hq|].
  rewrite H3, H2, H1. repeat split.
  - exact Hp.
  - cbn. unfold settled, await. cbn [pending set_pending].
    rewrite remove_nth_snoc. cbn [pending set_pending].
    rewrite remove_nth_snoc. reflexivity.
Qed.

Lemma transcription_success_witness :
  let w := run [choose_file (Some wav_file)] init in
  let w3 :=
    dispatch
      (transcription_settled 0 (reply "selam") 1730000000000)
      (dispatch (reader_settled 0 (Resolved wav_data_url))
         (handleTranscribeNow w)) in
  status (ui w3) = COMPLETED
  /\ result (ui w3)
     = Some (mkResult "selam" None 1730000000000 (Some wav_file)).
Proof.
  intros w w3.
  destruct (transcription_success w wav_file wav_data_url
              (mkResponse (Some "selam")) 1730000000000 eq_refl)
    as (_ & _ & H3 & H4 & _).
  split; [exact H3 | exact H4].
Defined.

(** X2: a transcription fails in two ways.  When the audio cannot be read
    no engine call is made and the error is the message of the rejection,
    or a fixed text when it has none; when the provider refuses the error is
    the engine's message.  Both end in status [ERROR] and leave the result
    and the pending audio as they were. *)
Theorem transcription_failure (w : World) (blob : Blob) (url : string)
    (err reason : Error) (now : Z) :
  pendingBlob (ui w) = Some blob ->
  let w1 := handleTranscribeNow w in
  let k := length (pending w) in
  let unread := dispatch (reader_settled k (Rejected err)) w1 in
  let refused :=
    dispatch (transcription_settled k (Rejected reason) now)
      (dispatch (reader_settled k (Resolved url)) w1) in
  (status (ui unread) = ERROR
   /\ error (ui unread)
      = Some (or_else (message err) "An error occurred during transcription.")
   /\ error (ui unread) <> Some ""
   /\ result (ui unread) = result (ui w)
   /\ pendingBlob (ui unread) = Some blob
   /\ pending unread = pending w)
  /\ (status (ui refused) = ERROR
      /\ error (ui refused)
         = Some
             "Failed to transcribe audio. Please check your connection or API key."
      /\ result (ui refused) = result (ui w)
      /\ pendingBlob (ui refused) = Some blob
      /\ pending refused = pending w).
Proof.
  intros Hp w1 k unread refused.
  assert (H1 : w1 = (setStatus TRANSCRIBING ;; await (AwaitDataURL blob)) w).
  { unfold w1, handleTranscribeNow. now rewrite Hp. }
  assert (Hs : pending (settled k w1) = pending w).
  { rewrite H1. apply remove_nth_snoc. }
  split.
  - assert (H2 : unread = handleTranscribeNow_catch err (settled k w1)).
    { unfold unread. rewrite H1.
      rewrite dispatch_reader_settled with (blob := blob)
        by apply nth_error_snoc.
      reflexivity. }
    rewrite H2. repeat split; try (rewrite H1; reflexivity).
    + cbn. intros H. injection H as H. revert H.
      apply or_else_nonempty. discriminate.
    + rewrite H1. exact Hp.
    + exact Hs.
  - set (w2 := dispatch (reader_settled k (Resolved url)) w1) in *.
    assert (H2 : w2 = await (AwaitTranscription blob
                               (index (split (ascii_of_nat 44) url) 1))
                        (settled k w1)).
    { unfold w2. rewrite H1.
      rewrite dispatch_reader_settled with (blob := blob)
        by apply nth_error_snoc.
      reflexivity. }
    assert (Hq : pending w2
                 = pending w ++ [AwaitTranscription blob
                                   (index (split (ascii_of_nat 44) url) 1)]).
    { rewrite H2. unfold await. cbn [pending set_pending]. now rewrite Hs. }
    assert (H3 : refused = handleTranscribeNow_catch TranscriptionFailed
                             (settled k w2)).
    { unfold refused.
      rewrite dispatch_transcription_settled
        with (blob := blob) (base64 := index (split (ascii_of_nat 44) url) 1)
        by (rewrite Hq; apply nth_error_snoc).
      reflexivity. }
    rewrite H3. repeat split; try (rewrite H2, H1; reflexivity).
    { rewrite H2, H1. exact Hp. }
    unfold handleTranscribeNow_catch, andThen, settled.
    cbn [pending setStatus setError with_ui set_pending].
    rewrite Hq. apply remove_nth_snoc.
Qed.

(** A read that fails with a [ProgressEvent], which has no message. *)
Lemma transcription_failure_witness :
  let w := run [choose_file (Some wav_file)] init in
  let unread :=
    dispatch (reader_settled 0 (Rejected (mkError None)))
      (handleTranscribeNow w) in
  status (ui unread) = ERROR
  /\ error (ui unread) = Some "An error occurred during transcription.".
Proof.
  intros w unread.
  destruct (transcription_failure w wav_file wav_data_url (mkError None)
              (mkError None) 0 eq_refl) as ((H1 & H2 & _) & _).
  split; [exact H1 | exact H2].
Defined.

(** X3: in status [ERROR] without a result no control but Clear All does
    anything: there is no button to transcribe the pending audio again. *)
Theorem failed_transcription_offers_only_clear_all (w : World) (e : Event) :
  status (ui w) = ERROR -> result (ui w) = None ->
  is_user_event e = true -> e <> click_clear_all ->
  dispatch e w = w.
Proof.
  intros Hs Hr He Hne. unfold dispatch. rewrite He.
  destruct e; try discriminate He; try (now elim Hne);
    unfold offered, has_result, translation_shown;
    rewrite ?Hs, ?Hr; reflexivity.
Qed.

Lemma failed_transcription_offers_only_clear_all_witness :
  let w :=
    run [choose_file (Some wav_file); click_transcribe;
         reader_settled 0 (Rejected (mkError None))] init in
  dispatch click_transcribe w = w.
Proof.
  intros w.
  apply (failed_transcription_offers_only_clear_all w click_transcribe);
    [reflexivity | reflexivity | reflexivity | discriminate].
Defined.

(** ** Translation *)

(** X4: the text sent for translation is the one on screen at the click.
    An edit of the transcript made while the translation is in flight is
    kept, and the translation that arrives is stored beside it. *)
Theorem translation_uses_text_at_click (w : World) (r : TranscriptionResult)
    (v : string) (response : GenerateContentResponse) :
  result (ui w) = Some r ->
  let w1 := handleTranslateNow w in
  let w2 := dispatch (type_text v) w1 in
  let w3 :=
    dispatch (translation_settled (length (pending w)) (Resolved response))
      w2 in
  pending w1 = pending w ++ [AwaitTranslation (text r)]
  /\ pending w2 = pending w1
  /\ status (ui w3) = COMPLETED
  /\ result (ui w3)
     = Some (mkResult v
               (Some (or_else (response_text response) translation_failed))
               (timestamp r) (audioBlob r))
  /\ error (ui w3) = error (ui w)
  /\ pending w3 = pending w.
Proof.
  intros Hr w1 w2 w3.
  assert (H1 : w1 = (setStatus TRANSLATING ;;
                     await (AwaitTranslation (text r))) w).
  { unfold w1, handleTranslateNow. now rewrite Hr. }
  assert (H2 : w2 = handleTextChange text_field v w1).
  { unfold w2. apply dispatch_user_event; [reflexivity|].
    rewrite H1. cbn. unfold has_result. cbn. now rewrite Hr. }
  assert (Hq : pending w2 = pending w ++ [AwaitTranslation (text r)]).
  { rewrite H2, H1. reflexivity. }
  assert (H3 : w3 = handleTranslateNow_translated
                      (Resolved (or_else (response_text response)
                                   translation_failed))
                      (settled (length (pending w)) w2)).
  { unfold w3.
    rewrite dispatch_translation_settled with (amharicText := text r)
      by (rewrite Hq; apply nth_error_snoc).
    reflexivity. }
  split; [rewrite H1; reflexivity|].
  split; [rewrite H2; reflexivity|].
  rewrite H3, H2, H1. repeat split.
  - cbn. now rewrite Hr.
  - cbn. apply remove_nth_snoc.
Qed.

Lemma translation_uses_text_at_click_witness :
  let w := run transcribed_trace init in
  let w3 :=
    dispatch (translation_settled 0 (reply "Hello"))
      (dispatch (type_text "selam new") (handleTranslateNow w)) in
  result (ui w3)
  = Some (mkResult "selam new" (Some "Hello") 1730000000000
            (Some wav_file)).
Proof.
  intros w w3.
  destruct (translation_uses_text_at_click w
              (mkResult "selam" None 1730000000000 (Some wav_file))
              "selam new" (mkResponse (Some "Hello")) eq_refl)
    as (_ & _ & _ & H & _).
  exact H.
Defined.

(** X5: Clear All during a translation does not cancel it.  When the
    answer arrives there is no result to put it in, and the status goes to
    [COMPLETED] with no result and no pending audio; with no error either
    when the provider answered. *)
Theorem translation_after_clear_all (w : World) (r : TranscriptionResult)
    (a : Settled GenerateContentResponse) :
  result (ui w) = Some r ->
  let w1 := handleTranslateNow w in
  let w2 := dispatch click_clear_all w1 in
  let w3 := dispatch (translation_settled (length (pending w)) a) w2 in
  status (ui w2) = IDLE
  /\ status (ui w3) = COMPLETED
  /\ result (ui w3) = None
  /\ pendingBlob (ui w3) = None
  /\ (rejected a = false -> error (ui w3) = None)
  /\ (rejected a = true ->
      error (ui w3) = Some "Failed to translate text.").
Proof.
  intros Hr w1 w2 w3.
  assert (H1 : w1 = (setStatus TRANSLATING ;;
                     await (AwaitTranslation (text r))) w).
  { unfold w1, handleTranslateNow. now rewrite Hr. }
  assert (H2 : w2 = reset w1).
  { unfold w2. apply dispatch_user_event; [reflexivity|].
    rewrite H1. reflexivity. }
  assert (H3 : w3 = handleTranslateNow_translated
                      (translateToEnglish (fun _ => a) (text r))
                      (settled (length (pending w)) w2)).
  { unfold w3.
    apply dispatch_translation_settled.
    rewrite H2, H1. cbn. apply nth_error_snoc. }
  split; [rewrite H2; reflexivity|].
  rewrite H3, H2, H1.
  destruct a as [e|response]; repeat split; try discriminate.
Qed.

Lemma translation_after_clear_all_witness :
  let w := run transcribed_trace init in
  let w3 :=
    dispatch (translation_settled 0 (reply "Hello"))
      (dispatch click_clear_all (handleTranslateNow w)) in
  status (ui w3) = COMPLETED /\ result (ui w3) = None
  /\ error (ui w3) = None.
Proof.
  intros w w3.
  destruct (translation_after_clear_all w
              (mkResult "selam" None 1730000000000 (Some wav_file))
              (reply "Hello") eq_refl)
    as (_ & H2 & H3 & _ & H5 & _).
  split; [exact H2 | split; [exact H3 | exact (H5 eq_refl)]].
Defined.

Lemma prefix_split (p s : string) :
  prefix p s = true -> exists rest, s = (p ++ rest)%string.
Proof.
  revert s. induction p as [|c p IH]; intros s H.
  - exists s. reflexivity.
  - destruct s as [|d s]; [discriminate H|].
    simpl in H. destruct (ascii_dec c d) as [->|]; [|discriminate H].
    destruct (IH s H) as [rest ->]. exists rest. reflexivity.
Qed.

(** ** Upload and capture *)

(** X6: a chosen file whose MIME type does not start with [audio/] only
    sets the error message; one whose type does is stored as the pending
    audio, in status [RECORDED], with the error cleared, and its download
    name takes as extension what follows [audio/], or [webm] when nothing
    does.  Without a file nothing happens. *)
Theorem upload_accepts_audio_only (w : World) (f : Blob) :
  (prefix "audio/" (blob_type f) = false ->
   let w1 := handleFileChange (Some f) w in
   same_workflow w w1
   /\ error (ui w1) = Some "Please select a valid audio file."
   /\ pending w1 = pending w)
  /\ (prefix "audio/" (blob_type f) = true ->
      let w1 := handleFileChange (Some f) w in
      status (ui w1) = RECORDED
      /\ pendingBlob (ui w1) = Some f
      /\ error (ui w1) = None
      /\ exists rest,
           blob_type f = ("audio/" ++ rest)%string
           /\ (occurs "/" rest = false ->
               forall now,
                 audio_filename f now
                 = ("amharic-audio-" ++ number_to_string now ++ "."
                    ++ (if rest =? "" then "webm" else rest))%string))
  /\ handleFileChange None w = w.
Proof.
  split; [|split].
  - intros Hf w1. unfold w1, handleFileChange. rewrite Hf. repeat split.
  - intros Hf w1. unfold w1, handleFileChange. rewrite Hf.
    repeat split.
    destruct (prefix_split _ _ Hf) as [rest Hrest].
    exists rest. split; [exact Hrest|].
    intros Hno now. unfold audio_filename.
    destruct f as [bytes type]. cbn [blob_type] in Hrest. subst type.
    change ("audio/" ++ rest)%string with ("audio" ++ "/" ++ rest)%string.
    rewrite audio_extension_of_subtype by (reflexivity || exact Hno).
    reflexivity.
  - reflexivity.
Qed.

Lemma concat_bytes_of_chunk (data : Blob) :
  concat (map blob_bytes
            (if (0 <? blob_size data)%nat then [data] else []))
  = blob_bytes data.
Proof.
  unfold blob_size. destruct (blob_bytes data) as [|b bs] eqn:E; cbn.
  - reflexivity.
  - rewrite E. cbn. now rewrite app_nil_r.
Qed.

(** X7: a capture from start to stop.  Once the microphone is granted the
    status is [RECORDING]; Stop releases the stream's tracks and forgets
    the stream while the status stays [RECORDING]; when the recorder has
    delivered its data the status is [RECORDED] and the pending audio holds
    exactly the delivered bytes (none for an empty delivery), tagged
    [audio/webm] whatever type the recorder gave them. *)
Theorem capture_end_to_end (w : World) (m : MediaStream) (data : Blob) :
  let w1 := startRecording w in
  let w2 :=
    dispatch (user_media_settled (length (pending w)) (Resolved m) Started)
      w1 in
  let w3 := dispatch click_stop w2 in
  let w4 := dispatch (recorder_stopped (length (recorders w)) data) w3 in
  (status (ui w2) = RECORDING /\ stream (ui w2) = Some m
   /\ recorders w2 = recorders w ++ [Recording])
  /\ (status (ui w3) = RECORDING /\ stream (ui w3) = None
      /\ stoppedStreams w3 = stoppedStreams w ++ [m]
      /\ recorders w3 = recorders w ++ [Stopping])
  /\ status (ui w4) = RECORDED
  /\ pendingBlob (ui w4) = Some (mkBlob (blob_bytes data) "audio/webm")
  /\ result (ui w4) = None
  /\ error (ui w4) = None
  /\ recorders w4 = recorders w ++ [Inactive]
  /\ pending w4 = pending w.
Proof.
  intros w1 w2 w3 w4.
  assert (H2 : w2 = (setStream (Some m) ;; new_MediaRecorder Recording ;;
                     setStatus RECORDING)
                      (settled (length (pending w)) w1)).
  { unfold w2. rewrite dispatch_user_media_settled by apply nth_error_snoc.
    reflexivity. }
  assert (Hrec : recorders w2 = recorders w ++ [Recording])
    by (rewrite H2; reflexivity).
  assert (Href : mediaRecorderRef w2 = Some (length (recorders w)))
    by (rewrite H2; reflexivity).
  assert (Hst : status (ui w2) = RECORDING) by (rewrite H2; reflexivity).
  assert (Hstream : stream (ui w2) = Some m) by (rewrite H2; reflexivity).
  assert (H3 : w3 = (set_recorders (recorders w ++ [Stopping]) ;;
                     stop_tracks (Some m) ;; setStream None) w2).
  { unfold w3. rewrite dispatch_user_event;
      [|reflexivity| cbn [offered]; rewrite Hst; reflexivity].
    cbn [handler]. unfold stopRecording. rewrite Href, Hst.
    cbn [status_eqb]. unfold andThen at 1 2 3 4. unfold recorder_stop.
    rewrite Hrec, nth_error_snoc, replace_nth_snoc, Hstream.
    reflexivity. }
  assert (Hrec3 : recorders w3 = recorders w ++ [Stopping])
    by (rewrite H3; reflexivity).
  assert (H4 : w4 = onstop (ondataavailable data
                      (set_recorders (recorders w ++ [Inactive]) w3))).
  { unfold w4.
    rewrite dispatch_recorder_stopped
      by (rewrite Hrec3; apply nth_error_snoc).
    rewrite Hrec3, replace_nth_snoc. reflexivity. }
  assert (Hchunks : audioChunksRef
                      (ondataavailable data
                         (set_recorders (recorders w ++ [Inactive]) w3))
                    = if (0 <? blob_size data)%nat then [data] else []).
  { unfold ondataavailable.
    destruct (0 <? blob_size data)%nat; rewrite H3, H2; reflexivity. }
  clearbody w4 w3 w2.
  split; [repeat split; assumption|].
  split.
  { rewrite H3. repeat split; cbn; rewrite H2; reflexivity. }
  rewrite H4. unfold onstop.
  cbn [andThen status pendingBlob result error ui setStatus setPendingBlob
       with_ui recorders pending].
  rewrite Hchunks. unfold new_Blob. rewrite concat_bytes_of_chunk.
  unfold ondataavailable.
  destruct (0 <? blob_size data)%nat; rewrite H3, H2;
    repeat split; cbn; apply remove_nth_snoc.
Qed.

Lemma nth_error_replace_nth {A} (l : list A) (i : nat) (x y : A) :
  nth_error l i = Some x -> nth_error (replace_nth i y l) i = Some y.
Proof.
  revert i. induction l as [|z l IH]; intros [|i] H; try discriminate H.
  - reflexivity.
  - simpl in *. now apply IH.
Qed.

Lemma dispatch_click_stop (w : World) :
  dispatch click_stop w
  = if status_eqb (status (ui w)) RECORDING then stopRecording w else w.
Proof. reflexivity. Qed.

(** X8: clicking Stop twice is clicking it once: the second click finds
    the recorder already stopping and the stream already forgotten. *)
Theorem stop_twice_is_stop_once (w : World) :
  dispatch click_stop (dispatch click_stop w) = dispatch click_stop w.
Proof.
  destruct w as [[st res err str pb sav suc] ref chunks recs stopped pend dls].
  destruct st; try reflexivity.
  destruct ref as [i|]; [|reflexivity].
  destruct (nth_error recs i) as [[]|] eqn:E; destruct str as [m|];
    repeat (unfold dispatch, stopRecording, recorder_stop, andThen,
              stop_tracks;
            cbn;
            rewrite ?E, ?(nth_error_replace_nth _ _ _ Stopping E));
    reflexivity.
Qed.

(** X9: Clear All during a recording returns to [IDLE] but stops neither
    the recorder nor the stream's tracks, and the Stop button, shown in
    status [RECORDING] only, is gone. *)
Theorem clear_all_keeps_recorder_running (w : World) :
  status (ui w) = RECORDING ->
  let w1 := dispatch click_clear_all w in
  status (ui w1) = IDLE
  /\ recorders w1 = recorders w
  /\ stream (ui w1) = stream (ui w)
  /\ stoppedStreams w1 = stoppedStreams w
  /\ dispatch click_stop w1 = w1.
Proof.
  intros Hs w1.
  assert (H1 : w1 = reset w).
  { unfold w1. apply dispatch_user_event; [reflexivity|].
    cbn [offered]. now rewrite Hs. }
  rewrite H1. repeat split.
Qed.

Lemma clear_all_keeps_recorder_running_witness :
  let w :=
    run [click_record; user_media_settled 0 (Resolved 7%nat) Started] init in
  let w1 := dispatch click_clear_all w in
  status (ui w1) = IDLE
  /\ recorders w1 = [Recording]
  /\ stream (ui w1) = Some 7%nat
  /\ dispatch click_stop w1 = w1.
Proof.
  intros w w1.
  destruct (clear_all_keeps_recorder_running w eq_refl)
    as (H1 & H2 & H3 & _ & H5).
  split; [exact H1 | split; [exact H2 | split; [exact H3 | exact H5]]].
Defined.

(** ** Saving *)

(** X10: a save that the store accepts sets [saveSuccess], lowers
    [isSaving], arms the timer and leaves the error message as it was;
    when the timer fires [saveSuccess] is lowered again and nothing else
    changes. *)
Theorem save_success_and_timer (w : World) (r : TranscriptionResult)
    (u : SupabaseService.User) (rows : list SupabaseService.Row) (now : Z) :
  result (ui w) = Some r ->
  let k := length (pending w) in
  let w1 := handleSaveToCloud w in
  let w2 := dispatch (save_settled k (Some u) (Resolved rows) now) w1 in
  let w3 := dispatch (timeout_fired k) w2 in
  saveSuccess (ui w1) = false
  /\ (saveSuccess (ui w2) = true /\ isSaving (ui w2) = false
      /\ error (ui w2) = error (ui w)
      /\ pending w2 = pending w ++ [SaveSuccessTimeout])
  /\ (saveSuccess (ui w3) = false /\ error (ui w3) = error (ui w)
      /\ same_workflow w w3 /\ pending w3 = pending w).
Proof.
  intros Hr k w1 w2 w3.
  assert (H1 : w1 = (setIsSaving true ;; setSaveSuccess false ;;
                     await (AwaitSave (text r) (translatedText r))) w).
  { unfold w1, handleSaveToCloud. now rewrite Hr. }
  assert (Hs : pending (settled k w1) = pending w).
  { rewrite H1. apply remove_nth_snoc. }
  assert (H2 : w2 = (setSaveSuccess true ;; await SaveSuccessTimeout ;;
                     setIsSaving false) (settled k w1)).
  { unfold w2. rewrite H1.
    rewrite dispatch_save_settled
      with (amharic := text r) (english := translatedText r)
      by apply nth_error_snoc.
    reflexivity. }
  assert (Hq : pending w2 = pending w ++ [SaveSuccessTimeout]).
  { rewrite H2. unfold andThen, await.
    cbn [pending setIsSaving setSaveSuccess with_ui set_pending].
    now rewrite Hs. }
  assert (H3 : w3 = saveSuccess_timeout (settled k w2)).
  { unfold w3. apply dispatch_timeout_fired.
    rewrite Hq. apply nth_error_snoc. }
  clearbody w3 w2.
  split; [rewrite H1; reflexivity|].
  split.
  { rewrite H2. repeat split; try (rewrite H1; reflexivity).
    rewrite <- H2. exact Hq. }
  rewrite H3. repeat split; try (rewrite H2, H1; reflexivity).
  unfold saveSuccess_timeout, settled.
  cbn [pending setSaveSuccess with_ui set_pending].
  rewrite Hq. apply remove_nth_snoc.
Qed.

Lemma save_success_and_timer_witness :
  let w := run translated_trace init in
  let w2 :=
    dispatch
      (save_settled 0 (Some (SupabaseService.mkUser "u1")) (Resolved [])
         1730000000999)
      (handleSaveToCloud w) in
  saveSuccess (ui w2) = true
  /\ pending w2 = [SaveSuccessTimeout]
  /\ saveSuccess (ui (dispatch (timeout_fired 0) w2)) = false.
Proof.
  intros w w2.
  destruct (save_success_and_timer w
              (mkResult "selam" (Some "Hello") 1730000000000
                 (Some wav_file))
              (SupabaseService.mkUser "u1") [] 1730000000999 eq_refl)
    as (_ & (H1 & _ & _ & H2) & (H3 & _)).
  split; [exact H1 | split; [exact H2 | exact H3]].
Defined.

(** X11: what is saved is what is on screen when Save is clicked: after
    edits of both texts the save in flight carries the edited texts, a
    later edit does not change it, and for a signed-in user
    [saveTranscription] hands the store one row with these texts, the
    user's id and the clock's time, and returns the store's answer. *)
Theorem save_sends_the_texts_on_screen (w : World) (r : TranscriptionResult)
    (a t late : string) (u : SupabaseService.User)
    (insert : list SupabaseService.Row -> Settled (list SupabaseService.Row))
    (now : Z) :
  result (ui w) = Some r ->
  truthy (translatedText r) = true ->
  let w1 := dispatch (type_translation t) (dispatch (type_text a) w) in
  let w2 := handleSaveToCloud w1 in
  let w3 := dispatch (type_text late) w2 in
  result (ui w1) = Some (mkResult a (Some t) (timestamp r) (audioBlob r))
  /\ pending w2 = pending w ++ [AwaitSave a (Some t)]
  /\ pending w3 = pending w2
  /\ SupabaseService.saveTranscription (Some u) insert a (Some t) now
     = insert [SupabaseService.mkRow a (Some t) (SupabaseService.id u) now].
Proof.
  intros Hr Ht w1 w2 w3.
  assert (H0 : dispatch (type_text a) w = handleTextChange text_field a w).
  { apply dispatch_user_event; [reflexivity|].
    cbn [offered]. unfold has_result. now rewrite Hr. }
  assert (H1 : w1 = handleTextChange translatedText_field t
                      (handleTextChange text_field a w)).
  { unfold w1. rewrite H0. apply dispatch_user_event; [reflexivity|].
    cbn [offered]. unfold translation_shown. cbn. now rewrite Hr. }
  assert (Hr1 : result (ui w1)
                = Some (mkResult a (Some t) (timestamp r) (audioBlob r))).
  { rewrite H1. cbn. now rewrite Hr. }
  assert (H2 : w2 = (setIsSaving true ;; setSaveSuccess false ;;
                     await (AwaitSave a (Some t))) w1).
  { unfold w2, handleSaveToCloud. now rewrite Hr1. }
  assert (H3 : w3 = handleTextChange text_field late w2).
  { unfold w3. apply dispatch_user_event; [reflexivity|].
    cbn [offered]. unfold has_result.
    replace (result (ui w2)) with (result (ui w1)) by (now rewrite H2).
    now rewrite Hr1. }
  clearbody w3 w2 w1.
  split; [exact Hr1|].
  split; [rewrite H2, H1; reflexivity|].
  split; [rewrite H3; reflexivity|].
  unfold SupabaseService.saveTranscription.
  destruct (insert _); reflexivity.
Qed.

Lemma save_sends_the_texts_on_screen_witness :
  let w := run translated_trace init in
  let w2 :=
    handleSaveToCloud
      (dispatch (type_translation "Hi")
         (dispatch (type_text "selam new") w)) in
  pending w2 = [AwaitSave "selam new" (Some "Hi")].
Proof.
  intros w w2.
  destruct (save_sends_the_texts_on_screen w
              (mkResult "selam" (Some "Hello") 1730000000000
                 (Some wav_file))
              "selam new" "Hi" "late" (SupabaseService.mkUser "u1")
              (fun rows => Resolved rows) 1730000000999 eq_refl eq_refl)
    as (_ & H & _).
  exact H.
Defined.

(** ** The engine and its input *)

(** X12: [blobToBase64] resolves to what follows the comma of the data
    URL, to [undefined] when the URL has no comma, and passes a read error
    on. *)
Theorem blobToBase64_takes_the_payload (header payload : string) (e : Error) :
  occurs "," header = false ->
  (occurs "," payload = false ->
   blobToBase64 (Resolved (header ++ "," ++ payload)%string)
   = Resolved (Some payload))
  /\ blobToBase64 (Resolved header) = Resolved None
  /\ blobToBase64 (Rejected e) = Rejected e.
Proof.
  intros Hh. repeat split.
  - intros Hp. unfold blobToBase64.
    change (ascii_of_nat 44) with ","%char.
    change (header ++ "," ++ payload)%string
      with (header ++ String "," payload)%string.
    rewrite split_at_first_separator by exact Hh.
    rewrite split_no_separator by exact Hp. reflexivity.
  - unfold blobToBase64. change (ascii_of_nat 44) with ","%char.
    rewrite split_no_separator by exact Hh. reflexivity.
Qed.

Lemma blobToBase64_takes_the_payload_witness :
  blobToBase64 (Resolved wav_data_url) = Resolved (Some "Ukk=").
Proof.
  destruct (blobToBase64_takes_the_payload "data:audio/wav;base64" "Ukk="
              (mkError None) eq_refl) as (H & _).
  exact (H eq_refl).
Defined.

(** X13: a text of the provider that is not empty is returned unchanged
    by both engine calls. *)
Theorem engine_returns_provider_text (ai : GoogleGenAI)
    (base64Audio : option string) (mimeType amharicText t : string) :
  t <> "" ->
  (ai (transcribe_request base64Audio mimeType) = Resolved (mkResponse (Some t))
   -> transcribeAmharic ai base64Audio mimeType = Resolved t)
  /\ (ai (translate_request amharicText) = Resolved (mkResponse (Some t))
      -> translateToEnglish ai amharicText = Resolved t).
Proof.
  intros Ht.
  assert (H : forall d, or_else (Some t) d = t).
  { intros d. unfold or_else, truthy.
    destruct (String.eqb_spec t ""); [contradiction | reflexivity]. }
  split; intros Ha; unfold transcribeAmharic, translateToEnglish;
    rewrite Ha; cbn [response_text]; now rewrite H.
Qed.

Lemma engine_returns_provider_text_witness :
  transcribeAmharic (fun _ => reply "selam") (Some "Ukk=") "audio/wav"
  = Resolved "selam".
Proof.
  assert (Hne : "selam" <> "") by discriminate.
  destruct (engine_returns_provider_text (fun _ => reply "selam")
              (Some "Ukk=") "audio/wav" "selam" "selam" Hne) as (H & _).
  exact (H eq_refl).
Defined.

Lemma string_app_inv_head (a x y : string) :
  (a ++ x = a ++ y)%string -> x = y.
Proof.
  induction a as [|c a IH]; simpl; intros H; [exact H|].
  injection H as H. exact (IH H).
Qed.

(** X17: the requests keep their inputs apart: two translations are sent
    the same request only for the same text, and two transcriptions only
    for the same audio data and the same MIME type. *)
Theorem requests_determine_inputs (t t' : string)
    (b b' : option string) (m m' : string) :
  (translate_request t = translate_request t' -> t = t')
  /\ (transcribe_request b m = transcribe_request b' m' ->
      b = b' /\ m = m').
Proof.
  split.
  - unfold translate_request, translate_prompt. intros H.
    injection H as H.
    repeat (apply string_app_inv_head in H). exact H.
  - unfold transcribe_request. intros H.
    injection H as Hm Hb. split; [exact Hb | exact Hm].
Qed.

Lemma forallb_remove_nth {A} (f : A -> bool) (l : list A) (k : nat) :
  forallb f l = true -> forallb f (remove_nth k l) = true.
Proof.
  revert k. induction l as [|x l IH]; intros [|k] H; simpl in *;
    try reflexivity; apply andb_true_iff in H; destruct H as [Hx Hl];
    [exact Hl | rewrite Hx; now apply IH].
Qed.

Lemma forallb_nth_error {A} (f : A -> bool) (l : list A) (k : nat) (x : A) :
  forallb f l = true -> nth_error l k = Some x -> f x = true.
Proof.
  intros H E. apply nth_error_In in E.
  rewrite forallb_forall in H. now apply H.
Qed.

Lemma forallb_snoc {A} (f : A -> bool) (l : list A) (x : A) :
  forallb f l = true -> f x = true -> forallb f (l ++ [x]) = true.
Proof. intros Hl Hx. rewrite forallb_app, Hl. simpl. now rewrite Hx. Qed.

Lemma only_audio_step (e : Event) (w : World) :
  only_audio w -> only_audio (dispatch e w).
Proof.
  intros Hinv. pose proof Hinv as (Hp & Hq & Hr).
  unfold dispatch.
  destruct (is_user_event e) eqn:He.
  - destruct (offered e (ui w)) eqn:Hoff; [|exact Hinv].
    unfold only_audio.
    destruct e; try discriminate He; cbn [handler].
    + unfold startRecording, andThen, await. proj.
      repeat split. now apply forallb_snoc.
    + unfold stopRecording.
      destruct (mediaRecorderRef w) as [i|]; [|exact Hinv].
      destruct (status_eqb (status (ui w)) RECORDING); [|exact Hinv].
      unfold andThen, recorder_stop.
      destruct (nth_error (recorders w) i) as [[]|];
        destruct (stream (ui w)); unfold stop_tracks; proj; exact Hinv.
    + unfold handleFileChange.
      destruct file as [f|];
        [destruct (prefix "audio/" (blob_type f)) eqn:Hf|];
        unfold andThen, skip; proj; try exact Hinv.
      repeat split; assumption.
    + unfold handleTranscribeNow.
      destruct (pendingBlob (ui w)) as [b|] eqn:E; [|now rewrite E].
      unfold andThen, await. proj. rewrite E.
      repeat split; try assumption. now apply forallb_snoc.
    + unfold handleTranslateNow.
      destruct (result (ui w)) as [r|] eqn:E; [|now rewrite E].
      unfold andThen, await. proj. rewrite E.
      repeat split; try assumption. now apply forallb_snoc.
    + unfold handleSaveToCloud.
      destruct (result (ui w)) as [r|] eqn:E; [|now rewrite E].
      unfold andThen, await. proj. rewrite E.
      repeat split; try assumption. now apply forallb_snoc.
    + unfold reset, andThen. proj. repeat split; assumption.
    + unfold handleTextChange. proj.
      repeat split; try assumption.
      destruct (result (ui w)); [exact Hr | reflexivity].
    + unfold handleTextChange. proj.
      repeat split; try assumption.
      destruct (result (ui w)); [exact Hr | reflexivity].
    + unfold downloadTranscription.
      destruct (result (ui w)) as [r|] eqn:E; [|now rewrite E].
      proj. now rewrite E.
    + unfold downloadAudio.
      destruct (audio_to_download (ui w)) as [b|]; [|exact Hinv].
      proj. exact Hinv.
  - unfold only_audio.
    destruct e; try discriminate He; unfold resume.
    + destruct (nth_error (pending w) k) as [[]|] eqn:E; try exact Hinv.
      unfold andThen, settled, startRecording_resume, startRecording_catch,
        new_MediaRecorder.
      destruct media as [err|m]; [|destruct recorder]; unfold andThen; proj;
        repeat split; try assumption; now apply forallb_remove_nth.
    + destruct (nth_error (pending w) k) as [[]|] eqn:E; try exact Hinv.
      pose proof (forallb_nth_error _ _ _ _ Hq E) as Hb.
      cbn [audio_pending] in Hb.
      unfold andThen, settled, handleTranscribeNow_encoded,
        handleTranscribeNow_catch, blobToBase64.
      destruct reader as [err|url]; unfold andThen, await; proj;
        repeat split; try assumption;
        try (now apply forallb_remove_nth).
      apply forallb_snoc; [now apply forallb_remove_nth | exact Hb].
    + destruct (nth_error (pending w) k) as [[]|] eqn:E; try exact Hinv.
      pose proof (forallb_nth_error _ _ _ _ Hq E) as Hb.
      cbn [audio_pending] in Hb.
      unfold andThen, settled, handleTranscribeNow_transcribed,
        handleTranscribeNow_catch, transcribeAmharic.
      destruct answer as [err|response]; unfold andThen; proj;
        repeat split; try assumption; now apply forallb_remove_nth.
    + destruct (nth_error (pending w) k) as [[]|] eqn:E; try exact Hinv.
      unfold andThen, settled, handleTranslateNow_translated,
        translateToEnglish.
      destruct answer as [err|response]; unfold andThen; proj;
        repeat split; try assumption;
        try (now apply forallb_remove_nth).
      destruct (result (ui w)); [exact Hr | reflexivity].
    + destruct (nth_error (pending w) k) as [[]|] eqn:E; try exact Hinv.
      unfold andThen, settled, handleSaveToCloud_saved.
      destruct (SupabaseService.saveTranscription user (fun _ => answer)
                  amharic english now);
        unfold andThen, await; proj; repeat split; try assumption;
        try (now apply forallb_remove_nth).
      apply forallb_snoc; [now apply forallb_remove_nth | reflexivity].
    + destruct (nth_error (pending w) k) as [[]|] eqn:E; try exact Hinv.
      unfold andThen, settled, saveSuccess_timeout. proj.
      repeat split; try assumption. now apply forallb_remove_nth.
    + destruct (nth_error (recorders w) i) as [[]|]; try exact Hinv;
        unfold andThen, ondataavailable, onstop, andThen; proj;
        destruct (0 <? blob_size event_data)%nat; proj;
        repeat split; assumption.
Qed.

Lemma only_audio_run (trace : list Event) (w : World) :
  only_audio w -> only_audio (run trace w).
Proof.
  revert w. induction trace as [|e trace IH]; intros w Hinv; [exact Hinv|].
  cbn [run fold_left]. apply IH, only_audio_step, Hinv.
Qed.

(** X14: in every reachable state the pending audio, the audio of every
    transcription in flight and the audio of the result have a MIME type
    that starts with [audio/]; a result always has its audio, which is the
    one offered for download. *)
Theorem only_audio_reaches_the_engine (trace : list Event) :
  let w := run trace init in
  (forall blob base64,
     In (AwaitTranscription blob base64) (pending w) ->
     prefix "audio/" (blob_type blob) = true)
  /\ (forall blob,
       In (AwaitDataURL blob) (pending w) ->
       prefix "audio/" (blob_type blob) = true)
  /\ (forall blob, pendingBlob (ui w) = Some blob ->
      prefix "audio/" (blob_type blob) = true)
  /\ (forall r, result (ui w) = Some r ->
      exists blob, audioBlob r = Some blob
                   /\ prefix "audio/" (blob_type blob) = true
                   /\ audio_to_download (ui w) = Some blob).
Proof.
  intros w.
  assert (Hinv : only_audio w).
  { apply only_audio_run. repeat split. }
  destruct Hinv as (Hp & Hq & Hr). repeat split.
  - intros blob base64 Hin.
    rewrite forallb_forall in Hq. exact (Hq _ Hin).
  - intros blob Hin.
    rewrite forallb_forall in Hq. exact (Hq _ Hin).
  - intros blob Hb. rewrite Hb in Hp. exact Hp.
  - intros r Hres. rewrite Hres in Hr. cbn in Hr.
    destruct (audioBlob r) as [b|] eqn:E; [|discriminate Hr].
    exists b. repeat split; [exact Hr|].
    unfold audio_to_download. now rewrite Hres, E.
Qed.

(** ** Signing in and the session *)

(** X15: [handleSubmit] calls [signIn] or [signUp], as [isLogin] says,
    with the email and the password of the form, after raising [loading]
    and clearing the error and the message.  When the call has settled
    [loading] is lowered and the form fields are untouched; a failure sets
    a non-empty error and no message; a success sets no error, and sets the
    message exactly for a sign-up that returned a user without a session. *)
Theorem auth_submit_outcome (s : AuthUI.State)
    (answer : Settled SupabaseAuth.AuthResponse) :
  let s1 := fst (AuthUI.handleSubmit s) in
  let call := snd (AuthUI.handleSubmit s) in
  let s2 := AuthUI.handleSubmit_settled call answer s1 in
  (AuthUI.loading s1 = true /\ AuthUI.error s1 = None
   /\ AuthUI.message s1 = None)
  /\ call = (if AuthUI.isLogin s
             then SupabaseAuth.signIn (AuthUI.email s) (AuthUI.password s)
             else SupabaseAuth.signUp (AuthUI.email s) (AuthUI.password s))
  /\ AuthUI.loading s2 = false
  /\ (AuthUI.isLogin s2 = AuthUI.isLogin s /\ AuthUI.email s2 = AuthUI.email s
      /\ AuthUI.password s2 = AuthUI.password s)
  /\ (auth_failed answer = true ->
      exists m, AuthUI.error s2 = Some m /\ m <> ""
                /\ AuthUI.message s2 = None)
  /\ (auth_failed answer = false ->
      AuthUI.error s2 = None
      /\ AuthUI.message s2
         = if awaits_confirmation call answer
           then Some AuthUI.check_your_email else None)
  /\ (AuthUI.isLogin s = true -> AuthUI.message s2 = None).
Proof.
  intros s1 call s2.
  split; [repeat split|]. split; [reflexivity|].
  unfold s2, call, s1. clear s1 call s2.
  destruct s as [l e p ld er ms].
  destruct l; destruct answer as [err|[[[u|] [se|]] [aerr|]]]; cbn;
    repeat split; try discriminate; try reflexivity;
    try (intros _; eexists; repeat split;
         apply or_else_nonempty; discriminate);
    try (intros _; repeat split).
Qed.

Lemma app_run_snoc (trace : list App.Event) (e : App.Event) (s : App.State) :
  App.run (trace ++ [e]) s = App.dispatch e (App.run trace s).
Proof. unfold App.run. now rewrite fold_left_app. Qed.

Lemma last_report_snoc (trace : list App.Event) (e : App.Event) :
  last_report (trace ++ [e])
  = match e with
    | App.session_loaded v | App.auth_state_changed v => Some v
    | App.click_logout => last_report trace
    end.
Proof.
  induction trace as [|x trace IH]; simpl.
  - destruct e; reflexivity.
  - rewrite IH. destruct e; try reflexivity.
Qed.

(** X16: [App] shows the spinner until [getSession] has answered, and
    never again after; its session is the last one reported, by
    [getSession] or by the listener; the transcriber is shown exactly when
    [getSession] has answered and the last report carries a session.  A
    click on Logout changes nothing by itself. *)
Theorem app_shows_last_report (trace : list App.Event) :
  let s := App.run trace App.init in
  App.loading s = negb (existsb is_session_loaded trace)
  /\ App.session s = match last_report trace with
                     | Some v => v
                     | None => None
                     end
  /\ (App.view s = App.transcriber <->
      existsb is_session_loaded trace = true
      /\ exists v, last_report trace = Some (Some v)).
Proof.
  induction trace as [|e trace IH] using rev_ind.
  - cbn. split; [reflexivity | split; [reflexivity|]].
    split; [discriminate | intros [H _]; discriminate H].
  - cbn zeta in *. rewrite app_run_snoc, last_report_snoc, existsb_app.
    destruct IH as (Hl & Hs & Hv).
    set (s := App.run trace App.init) in *.
    destruct e as [v|v|]; cbn [App.dispatch existsb is_session_loaded orb].
    + rewrite orb_true_r.
      split; [reflexivity | split; [reflexivity|]].
      unfold App.view; cbn [App.loading App.session]. split.
      * intros H. split; [reflexivity|].
        destruct v as [x|]; [now exists x | discriminate H].
      * intros [_ [x Hx]]. injection Hx as ->. reflexivity.
    + rewrite orb_false_r. cbn [App.loading App.session].
      split; [exact Hl | split; [reflexivity|]].
      unfold App.view; cbn [App.loading App.session]. rewrite Hl. split.
      * destruct (existsb is_session_loaded trace); cbn; [|discriminate].
        intros H. split; [reflexivity|].
        destruct v as [x|]; [now exists x | discriminate H].
      * intros [He [x Hx]]. injection Hx as ->. rewrite He. reflexivity.
    + rewrite orb_false_r.
      split; [exact Hl | split; [exact Hs | exact Hv]].
Qed.

(** ** The flags of a save *)

(** The goals left by a step of the flags invariant. *)
Ltac flags_done Ha Hb :=
  split; intros; first [discriminate | lia | (apply Ha; assumption)
                       | (apply Hb; assumption)
                       | (specialize (Ha ltac:(assumption)); lia)
                       | (specialize (Hb ltac:(assumption)); lia) ].

(** Every event keeps the flags invariant: a flag is raised together with
    its save or its timer, and what takes the save or the timer away lowers
    the flag. *)
Lemma flags_step (e : Event) (w : World) :
  flags_invariant w -> flags_invariant (dispatch e w).
Proof.
  intros Hinv. pose proof Hinv as (Ha & Hb).
  unfold dispatch.
  destruct (is_user_event e) eqn:He.
  - destruct (offered e (ui w)) eqn:Hoff; [|exact Hinv].
    unfold flags_invariant in *.
    destruct e; try discriminate He; cbn [handler].
    + unfold startRecording, andThen, await. proj. cbn [isSaving saveSuccess].
      rewrite !count_if_app. cbn. flags_done Ha Hb.
    + unfold stopRecording.
      destruct (mediaRecorderRef w) as [i|]; [|exact Hinv].
      destruct (status_eqb (status (ui w)) RECORDING); [|exact Hinv].
      unfold andThen, recorder_stop.
      destruct (nth_error (recorders w) i) as [[]|];
        destruct (stream (ui w)); unfold stop_tracks; proj; exact Hinv.
    + unfold handleFileChange.
      destruct file as [f|]; [destruct (prefix "audio/" (blob_type f))|];
        unfold andThen, skip; proj; exact Hinv.
    + unfold handleTranscribeNow.
      destruct (pendingBlob (ui w)) as [b|]; [|exact Hinv].
      unfold andThen, await. proj. cbn [isSaving saveSuccess].
      rewrite !count_if_app. cbn. flags_done Ha Hb.
    + unfold handleTranslateNow.
      destruct (result (ui w)) as [r|]; [|exact Hinv].
      unfold andThen, await. proj. cbn [isSaving saveSuccess].
      rewrite !count_if_app. cbn. flags_done Ha Hb.
    + unfold handleSaveToCloud.
      destruct (result (ui w)) as [r|]; [|exact Hinv].
      unfold andThen, await. proj. cbn [isSaving saveSuccess].
      rewrite !count_if_app. cbn. flags_done Ha Hb.
    + unfold reset, andThen. proj. cbn [isSaving saveSuccess].
      flags_done Ha Hb.
    + unfold handleTextChange. proj. exact Hinv.
    + unfold handleTextChange. proj. exact Hinv.
    + unfold downloadTranscription.
      destruct (result (ui w)) as [r|]; [|exact Hinv]. proj. exact Hinv.
    + unfold downloadAudio.
      destruct (audio_to_download (ui w)) as [b|]; [|exact Hinv].
      proj. exact Hinv.
  - unfold flags_invariant in *.
    destruct e; try discriminate He; unfold resume.
    + destruct (nth_error (pending w) k) as [[]|] eqn:E; try exact Hinv.
      pose proof (@count_if_remove_nth _ is_save _ _ _ E) as Hk.
      pose proof (@count_if_remove_nth _ is_timer _ _ _ E) as Ht.
      cbn [is_save is_timer] in Hk, Ht.
      unfold andThen, settled, startRecording_resume, startRecording_catch,
        new_MediaRecorder.
      destruct media as [err|m]; [|destruct recorder]; unfold andThen; proj;
        cbn [isSaving saveSuccess]; flags_done Ha Hb.
    + destruct (nth_error (pending w) k) as [[]|] eqn:E; try exact Hinv.
      pose proof (@count_if_remove_nth _ is_save _ _ _ E) as Hk.
      pose proof (@count_if_remove_nth _ is_timer _ _ _ E) as Ht.
      cbn [is_save is_timer] in Hk, Ht.
      unfold andThen, settled, handleTranscribeNow_encoded,
        handleTranscribeNow_catch, blobToBase64.
      destruct reader as [err|url]; unfold andThen, await; proj;
        cbn [isSaving saveSuccess]; rewrite ?count_if_app;
        cbn [count_if filter is_save is_timer length];
        flags_done Ha Hb.
    + destruct (nth_error (pending w) k) as [[]|] eqn:E; try exact Hinv.
      pose proof (@count_if_remove_nth _ is_save _ _ _ E) as Hk.
      pose proof (@count_if_remove_nth _ is_timer _ _ _ E) as Ht.
      cbn [is_save is_timer] in Hk, Ht.
      unfold andThen, settled, handleTranscribeNow_transcribed,
        handleTranscribeNow_catch, transcribeAmharic.
      destruct answer as [err|response]; unfold andThen; proj;
        cbn [isSaving saveSuccess]; flags_done Ha Hb.
    + destruct (nth_error (pending w) k) as [[]|] eqn:E; try exact Hinv.
      pose proof (@count_if_remove_nth _ is_save _ _ _ E) as Hk.
      pose proof (@count_if_remove_nth _ is_timer _ _ _ E) as Ht.
      cbn [is_save is_timer] in Hk, Ht.
      unfold andThen, settled, handleTranslateNow_translated,
        translateToEnglish.
      destruct answer as [err|response]; unfold andThen; proj;
        cbn [isSaving saveSuccess]; flags_done Ha Hb.
    + destruct (nth_error (pending w) k) as [[]|] eqn:E; try exact Hinv.
      pose proof (@count_if_remove_nth _ is_save _ _ _ E) as Hk.
      pose proof (@count_if_remove_nth _ is_timer _ _ _ E) as Ht.
      cbn [is_save is_timer] in Hk, Ht.
      unfold andThen, settled, handleSaveToCloud_saved.
      destruct (SupabaseService.saveTranscription user (fun _ => answer)
                  amharic english now);
        unfold andThen, await; proj; cbn [isSaving saveSuccess];
        rewrite ?count_if_app;
        cbn [count_if filter is_save is_timer length];
        flags_done Ha Hb.
    + destruct (nth_error (pending w) k) as [[]|] eqn:E; try exact Hinv.
      pose proof (@count_if_remove_nth _ is_save _ _ _ E) as Hk.
      pose proof (@count_if_remove_nth _ is_timer _ _ _ E) as Ht.
      cbn [is_save is_timer] in Hk, Ht.
      unfold andThen, settled, saveSuccess_timeout. proj.
      cbn [isSaving saveSuccess]. flags_done Ha Hb.
    + destruct (nth_error (recorders w) i) as [[]|]; try exact Hinv;
        unfold andThen, ondataavailable, onstop, andThen; proj;
        destruct (0 <? blob_size event_data)%nat; proj; exact Hinv.
Qed.

Lemma flags_run (trace : list Event) (w : World) :
  flags_invariant w -> flags_invariant (run trace w).
Proof.
  revert w. induction trace as [|e trace IH]; intros w Hinv; [exact Hinv|].
  cbn [run fold_left]. apply IH, flags_step, Hinv.
Qed.

Lemma count_if_positive {A} (f : A -> bool) (l : list A) :
  1 <= count_if f l -> exists x, In x l /\ f x = true.
Proof.
  unfold count_if. induction l as [|y l IH]; simpl; [lia|].
  destruct (f y) eqn:E.
  - intros _. exists y. split; [now left | exact E].
  - intros H. destruct (IH H) as (x & Hin & Hx).
    exists x. split; [now right | exact Hx].
Qed.

(** X18: in every reachable state [isSaving] is raised exactly while one
    save is in flight, so the Save button is enabled again as soon as the
    store has answered; and a raised [saveSuccess] has a timer armed that
    will lower it. *)
Theorem save_flags_have_their_cause (trace : list Event) :
  let w := run trace init in
  (isSaving (ui w) = true <-> saves_in_flight w = 1)
  /\ (saveSuccess (ui w) = true -> In SaveSuccessTimeout (pending w)).
Proof.
  intros w.
  assert (Hf : flags_invariant w).
  { apply flags_run. split; intros H; discriminate H. }
  destruct Hf as [Ha Hb].
  destruct (saving_run trace init saving_invariant_init) as [Hc Hd].
  fold w in Hc, Hd. unfold saves_in_flight in *. split; [split|].
  - intros H. specialize (Ha H). lia.
  - intros H. apply Hd. lia.
  - intros H. destruct (count_if_positive _ _ (Hb H)) as (x & Hin & Hx).
    destruct x; try discriminate Hx. exact Hin.
Qed.
